(** * Real-estate due-diligence RAG: a shallow embedding of [app.py]

    The Streamlit script [app.py] keeps a small session record, uploads
    documents to a hosted vector store, and asks a hosted model questions
    about them.  This file embeds the script's session logic, its two helper
    functions [rag_call] and [ask_model], and the citation traversal, and
    proves the properties the specification states about them.

    Conventions of the embedding:
    - Python values that the script inspects dynamically (the response of
      the generation endpoint) live in the untyped universe [Py.value];
    - an operation that can raise returns an [outcome];
    - code that threads state and exceptions is written in the monad
      [M S A := S -> outcome A * S]: the state survives an exception, as
      Python's heap and Streamlit's session state do;
    - the hosted service is a [Client] record of functions that see the log
      of all calls made before; every call is appended to that log;
    - display-only Streamlit calls (titles, captions, spinners, chat
      bubbles) have no effect on the session and are left out. *)

From Stdlib.Strings Require Import String Ascii Byte.
From Stdlib Require Import OrdersEx.
From stdpp Require Import base option list gmap strings sorting pretty.

Local Open Scope string_scope.
Local Open Scope list_scope.
Set Warnings "-register-all,-clear-no-such-hyp".
Set Default Proof Using "Type".

(** ** Python values, exceptions *)

Module Py.

(** The part of Python's value universe the script can meet in a response:
    [None], [str], [list], and attribute bags in the manner of
    [types.SimpleNamespace] (truthy, not iterable, not hashable).  Numbers
    and booleans are left out: no attribute the script reads is numeric.
    A [str] is held as its UTF-8 bytes; comparing the bytes orders strings
    as Python does by code point. *)
Inductive value : Type :=
  | VNone
  | VStr (s : string)
  | VList (l : list value)
  | VObj (attrs : list (string * value)).

Inductive exn : Type :=
  | AttributeError
  | TypeError
  | APIError (msg : string)
  | RerunException.

(** [except Exception] catches every exception class except those derived
    from [BaseException] only; Streamlit's rerun signal is one of these. *)
Definition is_Exception (e : exn) : bool :=
  match e with
  | RerunException => false
  | _ => true
  end.

Inductive outcome (A : Type) : Type :=
  | Ok (a : A)
  | Raise (e : exn).
Arguments Ok {A} a.
Arguments Raise {A} e.

(** [bool(v)] *)
Definition truthy (v : value) : bool :=
  match v with
  | VNone => false
  | VStr s => negb (String.eqb s "")
  | VList l => match l with [] => false | _ => true end
  | VObj _ => true
  end.

(** [a or b] *)
Definition py_or (a b : value) : value := if truthy a then a else b.

Fixpoint lookup_attr (n : string) (attrs : list (string * value)) : option value :=
  match attrs with
  | [] => None
  | (k, v) :: rest => if String.eqb k n then Some v else lookup_attr n rest
  end.

(** [hasattr(v, n)], for the attribute names the script uses (none of them
    is a method or field of [None], [str] or [list]). *)
Definition hasattr (v : value) (n : string) : bool :=
  match v with
  | VObj attrs => match lookup_attr n attrs with Some _ => true | None => false end
  | _ => false
  end.

(** [getattr(v, n, d)] *)
Definition getattr (v : value) (n : string) (d : value) : value :=
  match v with
  | VObj attrs => match lookup_attr n attrs with Some x => x | None => d end
  | _ => d
  end.

(** [v.n] *)
Definition attr (v : value) (n : string) : outcome value :=
  match v with
  | VObj attrs => match lookup_attr n attrs with Some x => Ok x | None => Raise AttributeError end
  | _ => Raise AttributeError
  end.

(** [v == s] for a string literal [s] *)
Definition eq_str (v : value) (s : string) : bool :=
  match v with
  | VStr t => String.eqb t s
  | _ => false
  end.

(** The one-character strings a loop over a [str] visits (here one per
    byte; none of them has an attribute the script reads). *)
Fixpoint chars (s : string) : list value :=
  match s with
  | EmptyString => []
  | String c rest => VStr (String c EmptyString) :: chars rest
  end.

(** The items a [for] loop over [v] visits; [TypeError] when [v] is not
    iterable. *)
Definition iter (v : value) : outcome (list value) :=
  match v with
  | VList l => Ok l
  | VStr s => Ok (chars s)
  | VNone => Raise TypeError
  | VObj _ => Raise TypeError
  end.

(** Hashable values, as set elements: [None] and strings.  Lists and
    attribute bags are unhashable. *)
Definition hash_key (v : value) : option (option string) :=
  match v with
  | VNone => Some None
  | VStr s => Some (Some s)
  | VList _ => None
  | VObj _ => None
  end.

Definition of_key (k : option string) : value :=
  match k with
  | None => VNone
  | Some s => VStr s
  end.

(** [set(l)] *)
Definition py_set (l : list value) : outcome (gset (option string)) :=
  match mapM hash_key l with
  | Some ks => Ok (list_to_set ks)
  | None => Raise TypeError
  end.

(** Python's order on [str]: lexicographic on the characters. *)
Definition str_lt (a b : string) : Prop := String_as_OT.compare a b = Lt.

Definition str_leb (a b : string) : bool :=
  match String_as_OT.compare a b with
  | Gt => false
  | _ => true
  end.

Definition str_le (a b : string) : Prop := str_leb a b = true.

Global Instance str_le_dec a b : Decision (str_le a b) := decide (str_leb a b = true).

(** [sorted(s)] for a set [s] of hashable values.  With fewer than two
    elements nothing is compared; strings are ordered by [str_le]; [None]
    cannot be compared with anything. *)
Definition py_sorted (s : gset (option string)) : outcome (list value) :=
  let xs := elements s in
  match xs with
  | [] | [_] => Ok (of_key <$> xs)
  | _ =>
      match mapM id xs with
      | Some names => Ok (VStr <$> merge_sort str_le names)
      | None => Raise TypeError
      end
  end.

(** [sorted(set(l))] *)
Definition sorted_set (l : list value) : outcome (list value) :=
  match py_set l with
  | Ok s => py_sorted s
  | Raise e => Raise e
  end.

(** The order in which a citation list is "lexicographically sorted". *)
Definition value_lt (a b : value) : Prop :=
  match a, b with
  | VStr x, VStr y => str_lt x y
  | _, _ => False
  end.

End Py.
Import Py.

(** ** State and exceptions *)

Definition M (S A : Type) : Type := S -> outcome A * S.

Definition ret {S A} (a : A) : M S A := fun s => (Ok a, s).

Definition bind {S A B} (m : M S A) (k : A -> M S B) : M S B :=
  fun s =>
    match m s with
    | (Ok a, s') => k a s'
    | (Raise e, s') => (Raise e, s')
    end.

Definition raise {S A} (e : exn) : M S A := fun s => (Raise e, s).

Definition lift {S A} (o : outcome A) : M S A := fun s => (o, s).

Definition get {S} : M S S := fun s => (Ok s, s).

Definition modify {S} (f : S -> S) : M S unit := fun s => (Ok tt, f s).

Notation "x <- m ;; k" := (bind m (fun x => k))
  (at level 100, m at next level, right associativity).
Notation "m ;;; k" := (bind m (fun _ => k))
  (at level 100, right associativity).

(** [for x in xs: body(x)] *)
Fixpoint for_each {S A} (xs : list A) (body : A -> M S unit) : M S unit :=
  match xs with
  | [] => ret tt
  | x :: rest => body x ;;; for_each rest body
  end.

(** [try: body except Exception: pass] *)
Definition try_except_pass {S} (body : M S unit) : M S unit :=
  fun s =>
    match body s with
    | (Ok _, s') => (Ok tt, s')
    | (Raise e, s') => if is_Exception e then (Ok tt, s') else (Raise e, s')
    end.

(** ** The citation traversal of [rag_call] (lines 58-67)

    The state is the local list [used_files]. *)

Record response : Type := {
  output_text : value;
  output : value
}.

(** lines 64-65 *)
Definition scan_result (r : value) : M (list value) unit :=
  if hasattr r "file_name" then
    v <- lift (attr r "file_name") ;;
    modify (fun used_files => used_files ++ [v])
  else ret tt.

(** lines 62-65 *)
Definition scan_content (c : value) : M (list value) unit :=
  if eq_str (getattr c "type" (VStr "")) "tool_result"
     && eq_str (getattr c "tool_name" (VStr "")) "file_search"
  then
    results <- lift (attr c "results") ;;
    rs <- lift (iter (py_or results (VList []))) ;;
    for_each rs scan_result
  else ret tt.

(** lines 61-65 *)
Definition scan_block (block : value) : M (list value) unit :=
  cs <- lift (iter (py_or (getattr block "content" (VList [])) (VList []))) ;;
  for_each cs scan_content.

(** lines 60-65 *)
Definition scan_output (resp : response) : M (list value) unit :=
  blocks <- lift (iter (py_or (output resp) (VList []))) ;;
  for_each blocks scan_block.

(** lines 58-67: the list [used_files] when control leaves the [try]
    statement; an exception that the handler does not catch propagates. *)
Definition used_files_of (resp : response) : outcome (list value) :=
  match try_except_pass (scan_output resp) [] with
  | (Ok _, used_files) => Ok used_files
  | (Raise e, _) => Raise e
  end.

(** ** Session state and the hosted service *)

(** An entry of [chat_history], and of the [input] of a request. *)
Record message : Type := {
  role : string;
  content : value
}.

Record tool : Type := {
  tool_type : string;
  vector_store_ids : list string
}.

(** The keyword arguments of [client.responses.create]. *)
Record request : Type := {
  req_model : string;
  req_instructions : string;
  req_tools : list tool;
  req_input : list message
}.

(** An element of what [st.file_uploader] returns. *)
Record uploaded_file : Type := {
  name : string;
  data : list byte
}.

Inductive api_call : Type :=
  | VectorStoresCreate (store_name : string)
  | FilesCreate (fname : string) (bytes : list byte) (purpose : string)
  | VectorStoresFilesCreate (vector_store_id file_id : string)
  | ResponsesCreate (req : request).

(** What the service answers: a result, or a failure (network, auth,
    quota, ...) that the client library raises as an API error. *)
Inductive reply (A : Type) : Type :=
  | Reply (a : A)
  | Failure (msg : string).
Arguments Reply {A} a.
Arguments Failure {A} msg.

(** The OpenAI client.  Each operation sees the calls made so far and
    answers with the identifier or response of the service, or fails. *)
Record Client : Type := {
  vector_stores_create : list api_call -> string -> reply string;
  files_create : list api_call -> string -> list byte -> string -> reply string;
  vector_stores_files_create : list api_call -> string -> string -> reply unit;
  responses_create : list api_call -> request -> reply response
}.

(** [st.session_state]: a key is absent until the script stores it. *)
Record session_state : Type := {
  vs_id : option string;
  indexed_filenames : option (gset string);
  chat_history : option (list message);
  model_choice : option string
}.

(** The session, the script's global counter, and the log of service calls. *)
Record world : Type := {
  session : session_state;
  newly_indexed_count : nat;
  api_log : list api_call
}.

Definition set_vs_id (v : option string) (s : session_state) : session_state :=
  {| vs_id := v; indexed_filenames := indexed_filenames s;
     chat_history := chat_history s; model_choice := model_choice s |}.

Definition set_indexed_filenames (v : option (gset string)) (s : session_state) : session_state :=
  {| vs_id := vs_id s; indexed_filenames := v;
     chat_history := chat_history s; model_choice := model_choice s |}.

Definition set_chat_history (v : option (list message)) (s : session_state) : session_state :=
  {| vs_id := vs_id s; indexed_filenames := indexed_filenames s;
     chat_history := v; model_choice := model_choice s |}.

Definition set_model_choice (v : option string) (s : session_state) : session_state :=
  {| vs_id := vs_id s; indexed_filenames := indexed_filenames s;
     chat_history := chat_history s; model_choice := v |}.

Definition on_session (f : session_state -> session_state) (w : world) : world :=
  {| session := f (session w); newly_indexed_count := newly_indexed_count w;
     api_log := api_log w |}.

Definition set_count (n : nat) (w : world) : world :=
  {| session := session w; newly_indexed_count := n; api_log := api_log w |}.

Definition log_call (c : api_call) (w : world) : world :=
  {| session := session w; newly_indexed_count := newly_indexed_count w;
     api_log := api_log w ++ [c] |}.

(** [st.session_state.<field>]: [AttributeError] when the key is absent. *)
Definition read {A} (field : session_state -> option A) : M world A :=
  fun w =>
    match field (session w) with
    | Some a => (Ok a, w)
    | None => (Raise AttributeError, w)
    end.

Definition outcome_of_reply {A} (r : reply A) : outcome A :=
  match r with
  | Reply a => Ok a
  | Failure msg => Raise (APIError msg)
  end.

(** A call of the service: the answer depends on the earlier calls, and the
    call is logged whether it succeeds or raises. *)
Definition call {A} (c : api_call) (answer : list api_call -> reply A) : M world A :=
  fun w => (outcome_of_reply (answer (api_log w)), log_call c w).

Definition empty_session : session_state :=
  {| vs_id := None; indexed_filenames := None; chat_history := None; model_choice := None |}.

Definition initial_world : world :=
  {| session := empty_session; newly_indexed_count := 0; api_log := [] |}.

(** The transcript, read as empty before the key exists. *)
Definition transcript (w : world) : list message :=
  match chat_history (session w) with
  | Some h => h
  | None => []
  end.

Definition user_message (text : string) : message :=
  {| role := "user"; content := VStr text |}.

Definition assistant_message (text : value) : message :=
  {| role := "assistant"; content := text |}.

(** [[{"role": msg["role"], "content": msg["content"]} for msg in h]] *)
Definition copy_messages (h : list message) : list message :=
  map (fun msg => {| role := role msg; content := content msg |}) h.

Definition nl : string := String (ascii_of_nat 10) EmptyString.

Definition chat_instructions : string :=
  "You are a real estate due diligence analyst. "
  +:+ "Use ONLY the uploaded documents (inspection reports, seller disclosures, appraisals, "
  +:+ "HOA documents, etc.) to answer. Highlight major risks, estimated impact, and any "
  +:+ "missing information. When possible, reference the source filenames.".

Definition investor_prompt : string :=
  "Create an investor-style memo for this property based ONLY on the uploaded documents. "
  +:+ "Include the following sections:" +:+ nl
  +:+ "1. High-Level Summary" +:+ nl
  +:+ "2. Property Condition Overview" +:+ nl
  +:+ "3. Major Risks (with severity)" +:+ nl
  +:+ "4. Recommended Repairs / Capex Items" +:+ nl
  +:+ "5. Potential Upside or Opportunities" +:+ nl
  +:+ "6. Overall Recommendation (e.g., Buy / Cautious Buy / Pass)" +:+ nl.

Definition investor_instructions : string :=
  "You are a real estate investment analyst. "
  +:+ "Write clear, concise, investor-ready memos. "
  +:+ "Be specific and tie every claim back to the uploaded documents wherever possible.".

(** The two entries of the model selector. *)
Inductive model_option : Type := Gpt5Mini | Gpt5Pro.

Definition model_name (o : model_option) : string :=
  match o with
  | Gpt5Mini => "gpt-5-mini"
  | Gpt5Pro => "gpt-5-pro"
  end.

(** What the widgets return in one run of the script. *)
Record ui : Type := {
  uploaded_files : list uploaded_file;
  selectbox : model_option;
  chat_input : option string;
  button : bool
}.

(** The keyword arguments that [rag_call] passes (lines 44-54). *)
Definition make_request (model vs instructions : string) (messages : list message) : request :=
  {| req_model := model;
     req_instructions := instructions;
     req_tools := [ {| tool_type := "file_search"; vector_store_ids := [vs] |} ];
     req_input := messages |}.

Definition no_text_output : value := VStr "_No text output._".

Section App.

Variable client : Client.

(** lines 21-35 *)
Definition init_session : M world unit :=
  w <- get ;;
  (match vs_id (session w) with
   | None =>
       id <- call (VectorStoresCreate "real_estate_due_diligence_store")
               (fun log => vector_stores_create client log "real_estate_due_diligence_store") ;;
       modify (on_session (set_vs_id (Some id)))
   | Some _ => ret tt
   end) ;;;
  w <- get ;;
  (match indexed_filenames (session w) with
   | None => modify (on_session (set_indexed_filenames (Some ∅)))
   | Some _ => ret tt
   end) ;;;
  w <- get ;;
  (match chat_history (session w) with
   | None => modify (on_session (set_chat_history (Some [])))
   | Some _ => ret tt
   end) ;;;
  w <- get ;;
  (match model_choice (session w) with
   | None => modify (on_session (set_model_choice (Some "gpt-5-mini")))
   | Some _ => ret tt
   end).

(** lines 38-69 *)
Definition rag_call (messages : list message) (instructions : string)
  : M world (value * list value) :=
  model <- read model_choice ;;
  vs <- read vs_id ;;
  let req := make_request model vs instructions messages in
  response <- call (ResponsesCreate req) (fun log => responses_create client log req) ;;
  let answer_text := py_or (output_text response) no_text_output in
  used_files <- lift (used_files_of response) ;;
  files <- lift (sorted_set used_files) ;;
  ret (answer_text, files).

(** lines 72-91 *)
Definition ask_model (question : string) (instructions : string) (update_history : bool)
  : M world (value * list value) :=
  h <- read chat_history ;;
  let messages := copy_messages h ++ [user_message question] in
  r <- rag_call messages instructions ;;
  let '(answer_text, used_files) := r in
  (if update_history then
     h1 <- read chat_history ;;
     modify (on_session (set_chat_history (Some (h1 ++ [user_message question])))) ;;;
     h2 <- read chat_history ;;
     modify (on_session (set_chat_history (Some (h2 ++ [assistant_message answer_text]))))
   else ret tt) ;;;
  ret (answer_text, used_files).

(** lines 109-119: the body of the indexing loop *)
Definition index_file (f : uploaded_file) : M world unit :=
  indexed <- read indexed_filenames ;;
  if decide (name f ∈ indexed) then ret tt
  else
    uploaded <- call (FilesCreate (name f) (data f) "assistants")
                  (fun log => files_create client log (name f) (data f) "assistants") ;;
    vs <- read vs_id ;;
    call (VectorStoresFilesCreate vs uploaded)
      (fun log => vector_stores_files_create client log vs uploaded) ;;;
    indexed' <- read indexed_filenames ;;
    modify (on_session (set_indexed_filenames (Some ({[ name f ]} ∪ indexed')))) ;;;
    w <- get ;;
    modify (set_count (newly_indexed_count w + 1)).

(** lines 104-119 *)
Definition upload_section (files : list uploaded_file) : M world unit :=
  modify (set_count 0) ;;;
  match files with
  | [] => ret tt
  | _ => for_each files index_file
  end.

(** lines 140-144 *)
Definition model_section (choice : model_option) : M world unit :=
  modify (on_session (set_model_choice (Some (model_name choice)))).

(** lines 152-180 *)
Definition chat_section (follow_up : option string) : M world unit :=
  indexed <- read indexed_filenames ;;
  if decide (indexed = ∅) then ret tt
  else
    match follow_up with
    | Some q =>
        if truthy (VStr q) then
          ask_model q chat_instructions true ;;;
          raise RerunException
        else ret tt
    | None => ret tt
    end.

(** lines 193-232 *)
Definition investor_section (clicked : bool) : M world unit :=
  indexed <- read indexed_filenames ;;
  if decide (indexed = ∅) then ret tt
  else if clicked then
    h <- read chat_history ;;
    let messages := copy_messages h ++ [user_message investor_prompt] in
    rag_call messages investor_instructions ;;;
    ret tt
  else ret tt.

(** One run of the script, top to bottom. *)
Definition script (u : ui) : M world unit :=
  init_session ;;;
  upload_section (uploaded_files u) ;;;
  model_section (selectbox u) ;;;
  chat_section (chat_input u) ;;;
  investor_section (button u).

(** Streamlit reruns the script on every interaction; the session and the
    service persist from run to run, whatever the run's outcome. *)
Definition run_session (us : list ui) (w : world) : world :=
  fold_left (fun w u => snd (script u w)) us w.

End App.

(** * Vocabulary of the properties *)

Arguments copy_messages : simpl never.

(** ** Citations *)

Definition is_str (v : value) : Prop := exists s, v = VStr s.

(** The test of line 62. *)
Definition is_file_search_result (c : value) : Prop :=
  attr c "type" = Ok (VStr "tool_result") /\ attr c "tool_name" = Ok (VStr "file_search").

(** A result entry of a file-search tool result of the response. *)
Definition result_of_content (c r : value) : Prop :=
  is_file_search_result c /\
  exists results rs,
    attr c "results" = Ok results /\ iter (py_or results (VList [])) = Ok rs /\ r ∈ rs.

Definition content_of_block (block c : value) : Prop :=
  exists cs, iter (py_or (getattr block "content" (VList [])) (VList [])) = Ok cs /\ c ∈ cs.

Definition block_of_response (resp : response) (block : value) : Prop :=
  exists blocks, iter (py_or (output resp) (VList [])) = Ok blocks /\ block ∈ blocks.

(** [x] is the [file_name] of a result entry of a content item with type
    [tool_result] and tool name [file_search], in a block of the output. *)
Definition cited (resp : response) (x : value) : Prop :=
  exists block c r,
    block_of_response resp block /\ content_of_block block c /\
    result_of_content c r /\ attr r "file_name" = Ok x.

(** The traversal raises nothing but attribute and type errors. *)
Definition traversal_error (e : exn) : Prop := e = AttributeError \/ e = TypeError.

(** ** Effects of a part of the script *)

(** [m] keeps the state property [P], whatever its outcome. *)
Definition keeps {A} (P : world -> Prop) (m : M world A) : Prop :=
  forall w, P w -> P (snd (m w)).

(** [m] never raises the rerun signal. *)
Definition calm {A} (m : M world A) : Prop :=
  forall w, fst (m w) <> Raise RerunException.

(** [m] neither reruns the script nor changes the transcript. *)
Definition quiet {A} (m : M world A) : Prop :=
  forall w, fst (m w) <> Raise RerunException /\ transcript (snd (m w)) = transcript w.

(** [m] either ends in [st.rerun()] after appending to the transcript the
    user entry for the chat input and one assistant entry, or is quiet. *)
Definition turn_or_quiet {A} (follow_up : option string) (m : M world A) : Prop :=
  forall w,
    (fst (m w) = Raise RerunException /\
     exists q a, follow_up = Some q /\
                 transcript (snd (m w)) = transcript w ++ [user_message q; assistant_message a])
    \/ (fst (m w) <> Raise RerunException /\ transcript (snd (m w)) = transcript w).

(** A run of the script is a successful chat turn exactly when it ends in
    the [st.rerun()] of line 180, which follows the return of [ask_model]. *)
Definition successful_turn (client : Client) (u : ui) (w : world) : bool :=
  match fst (script client u w) with
  | Raise RerunException => true
  | _ => false
  end.

Fixpoint successful_turns (client : Client) (us : list ui) (w : world) : nat :=
  match us with
  | [] => 0
  | u :: rest =>
      (if successful_turn client u w then 1 else 0)
      + successful_turns client rest (snd (script client u w))
  end.

Definition turn_entries (turn : string * value) : list message :=
  [user_message (fst turn); assistant_message (snd turn)].

(** ** The vector store *)

(** The call is made against the store [v]: an attachment names it, a
    query restricts its file search to it. *)
Definition uses_store (v : string) (c : api_call) : Prop :=
  match c with
  | VectorStoresFilesCreate vs _ => vs = v
  | ResponsesCreate req =>
      req_tools req = [ {| tool_type := "file_search"; vector_store_ids := [v] |} ]
  | VectorStoresCreate _ => True
  | FilesCreate _ _ _ => True
  end.

Definition is_store_creation (c : api_call) : bool :=
  match c with
  | VectorStoresCreate _ => true
  | _ => false
  end.

Fixpoint creation_count (log : list api_call) : nat :=
  match log with
  | [] => 0
  | c :: rest => (if is_store_creation c then 1 else 0) + creation_count rest
  end.

(** The session works on the store [v], every call so far was made
    against it, and [n] store creations have been requested. *)
Definition store_fixed (v : string) (n : nat) (w : world) : Prop :=
  vs_id (session w) = Some v /\
  Forall (uses_store v) (api_log w) /\
  creation_count (api_log w) = n.

(** Before the identifier exists nothing but store creations has been
    requested; once it exists every call is made against it. *)
Definition store_invariant (w : world) : Prop :=
  match vs_id (session w) with
  | Some v => Forall (uses_store v) (api_log w)
  | None => Forall (fun c => is_store_creation c = true) (api_log w)
  end.

(** ** What the page shows *)

(** lines 121-124: the notice under the uploader. *)
Inductive notice : Type :=
  | Success (text : string)
  | Info (text : string).

Definition upload_notice (files : list uploaded_file) (count : nat) : option notice :=
  match files with
  | [] => None
  | _ =>
      if Nat.ltb 0 count
      then Some (Success ("Indexed " +:+ pretty count
                          +:+ " new document(s). You can now chat with them below. 👇"))
      else Some (Info "All uploaded documents are already indexed in this session.")
  end.

(** lines 156-162: the chat bubbles, as pairs of speaker and text. *)
Definition render_history (h : list message) : list (string * value) :=
  flat_map (fun msg =>
              if String.eqb (role msg) "user" then [("user", content msg)]
              else if String.eqb (role msg) "assistant" then [("assistant", content msg)]
              else []) h.

(** line 229: the text of the memo. *)
Definition memo_text (investor_text : value) : value :=
  py_or investor_text (VStr "_No investor summary generated._").



(** lines 142-143: the entries of the selector and the entry it shows. *)
Definition model_options : list string := ["gpt-5-mini"; "gpt-5-pro"].

Definition selectbox_index (choice : string) : nat :=
  if String.eqb choice "gpt-5-mini" then 0 else 1.

(** ** The session as a whole *)

(** A question that passed the test of line 169 and an answer as line 56
    leaves it. *)
Definition well_formed_turn (turn : string * value) : Prop :=
  truthy (VStr (fst turn)) = true /\ truthy (snd turn) = true.

(** The transcript is a sequence of well-formed turns. *)
Definition tidy_transcript (w : world) : Prop :=
  exists turns, transcript w = flat_map turn_entries turns /\ Forall well_formed_turn turns.

Definition is_query (c : api_call) : bool :=
  match c with
  | ResponsesCreate _ => true
  | _ => false
  end.

Definition is_attachment (c : api_call) : bool :=
  match c with
  | VectorStoresFilesCreate _ _ => true
  | _ => false
  end.

Fixpoint count_calls (p : api_call -> bool) (log : list api_call) : nat :=
  match log with
  | [] => 0
  | c :: rest => (if p c then 1 else 0) + count_calls p rest
  end.

(** Every indexed name was uploaded, and there are at least as many
    attachments as indexed names. *)
Definition uploads_logged (w : world) : Prop :=
  forall indexed, indexed_filenames (session w) = Some indexed ->
    (forall n, n ∈ indexed -> exists bytes, FilesCreate n bytes "assistants" ∈ api_log w) /\
    size indexed <= count_calls is_attachment (api_log w).

(** A query was sent only with some document indexed. *)
Definition queries_gated (w : world) : Prop :=
  (exists req, ResponsesCreate req ∈ api_log w) ->
  exists indexed, indexed_filenames (session w) = Some indexed /\ indexed <> ∅.

(** The stored model and the model of every query are entries of the
    selector. *)
Definition models_listed (w : world) : Prop :=
  (forall m, model_choice (session w) = Some m -> m ∈ model_options) /\
  (forall req, ResponsesCreate req ∈ api_log w -> req_model req ∈ model_options).

(** The keys that lines 26-35 create when absent, created. *)
Definition fill_defaults (w : world) : world :=
  on_session
    (fun s => {| vs_id := vs_id s;
                 indexed_filenames := Some (default ∅ (indexed_filenames s));
                 chat_history := Some (default [] (chat_history s));
                 model_choice := Some (default "gpt-5-mini" (model_choice s)) |}) w.

(** From [w] to [w'] the service received at most [k] more queries, each
    for the model [model], and possibly other calls. *)
Definition sends (k : nat) (model : string) (w w' : world) : Prop :=
  exists new,
    api_log w' = api_log w ++ new /\
    count_calls is_query new <= k /\
    forall req, ResponsesCreate req ∈ new -> req_model req = model.

(** ** More scripted services *)

Module Scenarios.

(** A service whose generation endpoint is down. *)
Definition endpoint_down : Client :=
  {| vector_stores_create := fun _ _ => Reply "vs_1";
     files_create := fun _ fname _ _ => Reply ("file-" +:+ fname);
     vector_stores_files_create := fun _ _ _ => Reply tt;
     responses_create := fun _ _ => Failure "rate limit" |}.

(** A service that stores files but cannot attach "hoa.pdf". *)
Definition attach_fails_for_hoa : Client :=
  {| vector_stores_create := fun _ _ => Reply "vs_1";
     files_create := fun _ fname _ _ => Reply ("file-" +:+ fname);
     vector_stores_files_create :=
       fun _ _ fid => if String.eqb fid "file-hoa.pdf" then Failure "timeout" else Reply tt;
     responses_create := fun _ _ => Failure "rate limit" |}.

(** An answer in plain text, without any tool result. *)
Definition plain_response : response :=
  {| output_text := VStr "The roof was replaced in 2019.";
     output := VList [VObj [("type", VStr "message");
                            ("content",
                             VList [VObj [("type", VStr "output_text");
                                          ("text", VStr "The roof was replaced in 2019.")]])]] |}.

Definition three_uploads : list uploaded_file :=
  [ {| name := "appraisal.pdf"; data := [] |};
    {| name := "hoa.pdf"; data := [] |};
    {| name := "survey.pdf"; data := [] |} ].

End Scenarios.

(** ** Sample responses and a scripted service *)

Module Fixtures.

Definition result_entry (n : string) : value := VObj [("file_name", VStr n)].

Definition file_search_result (results : value) : value :=
  VObj [("type", VStr "tool_result"); ("tool_name", VStr "file_search"); ("results", results)].

Definition message_block (items : list value) : value :=
  VObj [("type", VStr "message"); ("content", VList items)].

(** One citation. *)
Definition roof_response : response :=
  {| output_text := VStr "Roof is in fair condition.";
     output := VList [message_block
                        [file_search_result (VList [result_entry "inspection.pdf"])]] |}.

(** Repeated citations, out of order. *)
Definition repeated_response : response :=
  {| output_text := VStr "See the reports.";
     output := VList [message_block
                        [file_search_result
                           (VList [result_entry "hoa.pdf"; result_entry "appraisal.pdf";
                                   result_entry "hoa.pdf"])]] |}.

(** A complete tool result followed by one that has no [results]. *)
Definition truncated_response : response :=
  {| output_text := VStr "Roof is in fair condition.";
     output := VList [message_block
                        [file_search_result (VList [result_entry "inspection.pdf"]);
                         VObj [("type", VStr "tool_result"); ("tool_name", VStr "file_search")]]] |}.

(** A result whose [file_name] is [None] next to a named one. *)
Definition unnamed_response : response :=
  {| output_text := VStr "Roof is in fair condition.";
     output := VList [message_block
                        [file_search_result
                           (VList [VObj [("file_name", VNone)];
                                   result_entry "inspection.pdf"])]] |}.

(** No text and no output. *)
Definition silent_response : response :=
  {| output_text := VNone; output := VNone |}.

(** A service that accepts everything and always answers [resp]. *)
Definition always (resp : response) : Client :=
  {| vector_stores_create := fun _ _ => Reply "vs_1";
     files_create := fun _ fname _ _ => Reply ("file-" +:+ fname);
     vector_stores_files_create := fun _ _ _ => Reply tt;
     responses_create := fun _ _ => Reply resp |}.

(** A service whose uploads are rejected. *)
Definition rejecting_uploads : Client :=
  {| vector_stores_create := fun _ _ => Reply "vs_1";
     files_create := fun _ _ _ _ => Failure "quota exceeded";
     vector_stores_files_create := fun _ _ _ => Reply tt;
     responses_create := fun _ _ => Reply roof_response |}.

(** A session after its first run, with one document indexed. *)
Definition ready : world :=
  {| session := {| vs_id := Some "vs_1";
                   indexed_filenames := Some {[ "inspection.pdf" ]};
                   chat_history := Some [];
                   model_choice := Some "gpt-5-mini" |};
     newly_indexed_count := 0;
     api_log := [] |}.

Definition roof_question : string := "What is the roof condition?".

(** The user uploads the inspection report. *)
Definition upload_run : ui :=
  {| uploaded_files := [ {| name := "inspection.pdf"; data := [] |} ];
     selectbox := Gpt5Mini; chat_input := None; button := false |}.

(** The user asks about the roof; the uploader still holds the report. *)
Definition chat_run : ui :=
  {| uploaded_files := [ {| name := "inspection.pdf"; data := [] |} ];
     selectbox := Gpt5Mini; chat_input := Some roof_question; button := false |}.

(** The user asks for the investor memo. *)
Definition summary_run : ui :=
  {| uploaded_files := [ {| name := "inspection.pdf"; data := [] |} ];
     selectbox := Gpt5Pro; chat_input := None; button := true |}.

End Fixtures.

(** * Properties *)

(** ** The order on strings *)

Lemma str_compare_refl (a : string) : String_as_OT.compare a a = Eq.
Proof.
  destruct (String_as_OT.compare_spec a a) as [_ | H | H]; [reflexivity | | ];
    exfalso; exact (irreflexivity String_as_OT.lt a H).
Qed.

Lemma str_le_lt_or_eq (a b : string) : str_le a b <-> str_lt a b \/ a = b.
Proof.
  unfold str_le, str_leb, str_lt. split.
  - destruct (String_as_OT.compare_spec a b) as [E | L | G]; intros H.
    + right; exact E.
    + left; reflexivity.
    + discriminate H.
  - intros [L | E].
    + rewrite L; reflexivity.
    + subst b. rewrite str_compare_refl. reflexivity.
Qed.

Lemma str_lt_trans (a b c : string) : str_lt a b -> str_lt b c -> str_lt a c.
Proof. unfold str_lt. intros H1 H2. exact (transitivity (R := String_as_OT.lt) H1 H2). Qed.

Global Instance str_le_trans : Transitive str_le.
Proof.
  intros a b c Hab Hbc.
  apply str_le_lt_or_eq in Hab. apply str_le_lt_or_eq in Hbc.
  apply str_le_lt_or_eq.
  destruct Hab as [Hab | ->]; destruct Hbc as [Hbc | ->]; eauto using str_lt_trans.
Qed.

Global Instance str_le_total : Total str_le.
Proof.
  intros a b. unfold str_le, str_leb.
  destruct (String_as_OT.compare_spec a b) as [E | L | G].
  - left; reflexivity.
  - left; reflexivity.
  - right. unfold String_as_OT.lt in G. rewrite G. reflexivity.
Qed.

Lemma StronglySorted_strict (l : list string) :
  StronglySorted str_le l -> NoDup l -> StronglySorted str_lt l.
Proof.
  induction 1 as [| x l Hl IH Hx]; intros Hnd.
  - constructor.
  - apply NoDup_cons in Hnd as [Hnotin Hnd].
    constructor; [auto |].
    apply Forall_forall. intros y Hy.
    rewrite Forall_forall in Hx.
    destruct (proj1 (str_le_lt_or_eq x y) (Hx y Hy)) as [L | E]; [exact L |].
    subst y. contradiction.
Qed.

(** ** [sorted(set(...))] *)

Lemma hash_key_inv (v : value) (k : option string) : hash_key v = Some k -> v = of_key k.
Proof. destruct v; simpl; intros H; inversion H; reflexivity. Qed.

Lemma hash_key_of_key (k : option string) : hash_key (of_key k) = Some k.
Proof. destruct k; reflexivity. Qed.

Global Instance VStr_inj : Inj (=) (=) VStr.
Proof. intros a b H. inversion H. reflexivity. Qed.

Global Instance of_key_inj : Inj (=) (=) of_key.
Proof. intros [a|] [b|] H; inversion H; reflexivity. Qed.

Lemma mapM_hash_key (l : list value) (ks : list (option string)) :
  mapM hash_key l = Some ks -> l = of_key <$> ks.
Proof.
  intros H. apply mapM_Some_1 in H.
  induction H as [| v k l ks Hk _ IH]; [reflexivity |].
  rewrite fmap_cons, <- IH, (hash_key_inv _ _ Hk). reflexivity.
Qed.

Lemma mapM_id_Some (xs : list (option string)) (names : list string) :
  mapM id xs = Some names -> xs = Some <$> names.
Proof.
  intros H. apply mapM_Some_1 in H.
  induction H as [| x n xs names Hx _ IH]; [reflexivity |].
  unfold id in Hx. rewrite fmap_cons, <- IH, Hx. reflexivity.
Qed.

Lemma py_set_elem (l : list value) (s : gset (option string)) :
  py_set l = Ok s -> forall v, v ∈ l <-> exists k, k ∈ s /\ v = of_key k.
Proof.
  unfold py_set. destruct (mapM hash_key l) as [ks|] eqn:E; [| discriminate].
  intros H v. inversion H; subst s; clear H.
  rewrite (mapM_hash_key _ _ E), list_elem_of_fmap.
  split; intros (k & H1 & H2).
  - exists k. split; [apply elem_of_list_to_set; exact H2 | exact H1].
  - exists k. split; [exact H2 | apply elem_of_list_to_set in H1; exact H1].
Qed.

Lemma value_lt_VStr (a b : string) : str_lt a b -> value_lt (VStr a) (VStr b).
Proof. intros H; exact H. Qed.

Lemma py_sorted_spec (s : gset (option string)) (files : list value) :
  py_sorted s = Ok files ->
  NoDup files /\ StronglySorted value_lt files /\
  forall v, v ∈ files <-> exists k, k ∈ s /\ v = of_key k.
Proof.
  unfold py_sorted.
  assert (Hnd : NoDup (elements s)) by apply NoDup_elements.
  assert (Hel : forall k, k ∈ elements s <-> k ∈ s) by (intros k; apply elem_of_elements).
  revert Hnd Hel. generalize (elements s). intros xs Hnd Hel Hs.
  assert (Hshort : files = of_key <$> xs -> length xs <= 1 ->
            NoDup files /\ StronglySorted value_lt files /\
            forall v, v ∈ files <-> exists k, k ∈ s /\ v = of_key k).
  { intros -> Hlen. split; [apply NoDup_fmap_2; [apply _ | exact Hnd] |]. split.
    - destruct xs as [| x [| y r]]; simpl in *; [constructor | | lia].
      constructor; constructor.
    - intros v. rewrite list_elem_of_fmap. split; intros (k & H1 & H2).
      + exists k. split; [apply Hel; exact H2 | exact H1].
      + exists k. split; [exact H2 | apply Hel; exact H1]. }
  destruct xs as [| x [| y r]].
  - apply Hshort; [congruence | simpl; lia].
  - apply Hshort; [congruence | simpl; lia].
  - clear Hshort. destruct (mapM id (x :: y :: r)) as [names|] eqn:E; [| discriminate].
    inversion Hs; subst files; clear Hs.
    apply mapM_id_Some in E. rewrite E in Hnd, Hel. clear E.
    apply NoDup_fmap in Hnd; [| apply _].
    assert (Hp : merge_sort str_le names ≡ₚ names) by apply merge_sort_Permutation.
    assert (Hnd' : NoDup (merge_sort str_le names)) by (rewrite Hp; exact Hnd).
    split; [apply NoDup_fmap_2; [apply _ | exact Hnd'] |]. split.
    + apply (StronglySorted_fmap VStr str_lt value_lt); [exact value_lt_VStr |].
      apply StronglySorted_strict; [apply StronglySorted_merge_sort; apply _ | exact Hnd'].
    + intros v. rewrite list_elem_of_fmap. split.
      * intros (n & -> & Hn). rewrite Hp in Hn. exists (Some n). split; [| reflexivity].
        apply Hel. apply list_elem_of_fmap. exists n. split; [reflexivity | exact Hn].
      * intros (k & Hk & ->). apply Hel in Hk. apply list_elem_of_fmap in Hk.
        destruct Hk as (n & -> & Hn). exists n. split; [reflexivity |].
        rewrite Hp. exact Hn.
Qed.

(** Whatever [sorted(set(l))] returns has no duplicates, is strictly
    increasing, and has the elements of [l]. *)
Lemma sorted_set_spec (l files : list value) :
  sorted_set l = Ok files ->
  NoDup files /\ StronglySorted value_lt files /\ forall v, v ∈ files <-> v ∈ l.
Proof.
  unfold sorted_set. destruct (py_set l) as [s | e] eqn:Es; [| discriminate].
  intros H. apply py_sorted_spec in H as (H1 & H2 & H3).
  split; [exact H1 |]. split; [exact H2 |].
  intros v. rewrite H3. symmetry. apply (py_set_elem _ _ Es).
Qed.

Lemma mapM_hash_key_strs (l : list value) :
  Forall is_str l -> exists names, l = VStr <$> names /\ mapM hash_key l = Some (Some <$> names).
Proof.
  induction 1 as [| v l [s ->] _ (names & -> & IH)].
  - exists []. split; reflexivity.
  - exists (s :: names). split; [reflexivity |].
    apply mapM_Some_2. constructor; [reflexivity |].
    apply mapM_Some_1. exact IH.
Qed.

(** On strings [sorted(set(l))] returns. *)
Lemma sorted_set_strs (l : list value) :
  Forall is_str l -> exists files, sorted_set l = Ok files.
Proof.
  intros H. destruct (mapM_hash_key_strs l H) as (names & -> & E).
  unfold sorted_set, py_set. rewrite E. unfold py_sorted.
  set (s := list_to_set (Some <$> names) : gset (option string)).
  assert (Hall : Forall (fun k => is_Some k) (elements s)).
  { apply Forall_forall. intros k Hk. apply elem_of_elements in Hk.
    apply elem_of_list_to_set, list_elem_of_fmap in Hk. destruct Hk as (n & -> & _). eauto. }
  destruct (elements s) as [| x [| y r]] eqn:Ex; [eauto | eauto |].
  destruct (mapM id (x :: y :: r)) as [ns|] eqn:En; [eauto |].
  exfalso. apply mapM_None_1 in En. apply Exists_exists in En as (k & Hk & Hnone).
  rewrite Forall_forall in Hall. destruct (Hall k Hk) as [n Hn].
  unfold id in Hnone. congruence.
Qed.

(** [sorted(set(l))] raises nothing but [TypeError], and only when [l]
    holds something that is not a string. *)
Lemma sorted_set_raise (l : list value) (e : exn) :
  sorted_set l = Raise e -> e = TypeError /\ ~ Forall is_str l.
Proof.
  intros H. split.
  - unfold sorted_set, py_set, py_sorted in H.
    destruct (mapM hash_key l); [| inversion H; reflexivity].
    destruct (elements _) as [| x [| y r]]; try discriminate.
    destruct (mapM id _); [discriminate | inversion H; reflexivity].
  - intros Hs. destruct (sorted_set_strs l Hs) as [files Hf]. congruence.
Qed.

(** ** Loops *)

Ltac run_monad :=
  unfold bind, ret, raise, lift, get, modify, read, call in *; simpl in *.

(** A property of the state that every iteration keeps, whatever its
    outcome, holds when the loop ends or is aborted. *)
Lemma for_each_inv {S A} (P : S -> Prop) (body : A -> M S unit) (xs : list A) :
  (forall x s, x ∈ xs -> P s -> P (snd (body x s))) ->
  forall s, P s -> P (snd (for_each xs body s)).
Proof.
  induction xs as [| x xs IH]; intros Hbody s Hs; [exact Hs |].
  simpl. unfold bind.
  specialize (Hbody x s) as Hx. specialize (Hx ltac:(left) Hs).
  destruct (body x s) as [[[] | e] s1]; simpl in *; [| exact Hx].
  apply IH; [| exact Hx].
  intros y t Hy. apply Hbody. right. exact Hy.
Qed.

(** A loop that ran to its end has run every iteration to its end. *)
Lemma for_each_visit {A} (body : A -> M (list value) unit) (xs : list A) :
  (forall x s, s `prefix_of` snd (body x s)) ->
  forall s s' x, for_each xs body s = (Ok tt, s') -> x ∈ xs ->
    exists s1, fst (body x s1) = Ok tt /\ snd (body x s1) `prefix_of` s'.
Proof.
  intros Hgrow. induction xs as [| y xs IH]; intros s s' x Hrun Hx.
  - inversion Hx.
  - simpl in Hrun. unfold bind in Hrun.
    destruct (body y s) as [[[] | e] s1] eqn:Ey; [| discriminate].
    apply elem_of_cons in Hx as [-> | Hx].
    + exists s. rewrite Ey. split; [reflexivity |]. simpl.
      replace s' with (snd (for_each xs body s1)) by (rewrite Hrun; reflexivity).
      apply (for_each_inv (fun t => s1 `prefix_of` t)); [| reflexivity].
      intros z t _ Ht. etransitivity; [exact Ht | apply Hgrow].
    + exact (IH s1 s' x Hrun Hx).
Qed.

(** ** The citation traversal *)

Lemma hasattr_attr (v : value) (n : string) :
  hasattr v n = true <-> exists x, attr v n = Ok x.
Proof.
  destruct v; simpl; try (split; [discriminate | intros [x H]; discriminate]).
  destruct (lookup_attr n attrs); split; eauto; try discriminate.
  intros [x H]; discriminate.
Qed.

Lemma eq_str_getattr (v : value) (n s : string) :
  s <> "" -> eq_str (getattr v n (VStr "")) s = true -> attr v n = Ok (VStr s).
Proof.
  intros Hs.
  assert (Hdefault : eq_str (VStr "") s = true -> False).
  { unfold eq_str. intros H. apply String.eqb_eq in H. congruence. }
  destruct v; simpl; try (intros H; destruct (Hdefault H)).
  destruct (lookup_attr n attrs) as [x|]; [| intros H; destruct (Hdefault H)].
  destruct x; simpl; try discriminate.
  intros H. apply String.eqb_eq in H. congruence.
Qed.

Lemma attr_eq_str (v : value) (n s : string) :
  attr v n = Ok (VStr s) -> eq_str (getattr v n (VStr "")) s = true.
Proof.
  destruct v; simpl; try discriminate.
  destruct (lookup_attr n attrs); [| discriminate].
  intros H. inversion H. simpl. apply String.eqb_refl.
Qed.

Lemma line62_test (c : value) :
  eq_str (getattr c "type" (VStr "")) "tool_result"
  && eq_str (getattr c "tool_name" (VStr "")) "file_search" = true
  <-> is_file_search_result c.
Proof.
  unfold is_file_search_result. rewrite andb_true_iff. split; intros [H1 H2]; split.
  - apply eq_str_getattr; [discriminate | exact H1].
  - apply eq_str_getattr; [discriminate | exact H2].
  - apply attr_eq_str; exact H1.
  - apply attr_eq_str; exact H2.
Qed.

Lemma scan_result_run (r : value) (used : list value) :
  scan_result r used =
  (Ok tt, match attr r "file_name" with Ok x => used ++ [x] | Raise _ => used end).
Proof.
  unfold scan_result. destruct (hasattr r "file_name") eqn:E.
  - apply hasattr_attr in E as [x Hx]. run_monad. rewrite Hx. reflexivity.
  - destruct (attr r "file_name") as [x | e] eqn:Hx; [| reflexivity].
    assert (hasattr r "file_name" = true) by (apply hasattr_attr; eauto). congruence.
Qed.

Section Traversal.

Variable Q : value -> Prop.

Lemma scan_result_inv (r : value) (used : list value) :
  (forall x, attr r "file_name" = Ok x -> Q x) ->
  Forall Q used -> Forall Q (snd (scan_result r used)).
Proof.
  intros Hr Hused. rewrite scan_result_run. simpl.
  destruct (attr r "file_name") as [x | e]; [| exact Hused].
  apply Forall_app. split; [exact Hused |]. constructor; [auto | constructor].
Qed.

Lemma scan_content_inv (c : value) (used : list value) :
  (forall r x, result_of_content c r -> attr r "file_name" = Ok x -> Q x) ->
  Forall Q used -> Forall Q (snd (scan_content c used)).
Proof.
  intros Hc Hused. unfold scan_content.
  destruct (_ && _) eqn:Etest; [| exact Hused].
  apply line62_test in Etest.
  run_monad. destruct (attr c "results") as [results | e] eqn:Eres; [| exact Hused].
  destruct (iter (py_or results (VList []))) as [rs | e] eqn:Eit; [| exact Hused].
  apply (for_each_inv (Forall Q)); [| exact Hused].
  intros r s Hr Hs. apply scan_result_inv; [| exact Hs].
  intros x Hx. apply (Hc r x); [| exact Hx].
  split; [exact Etest |]. exists results, rs. auto.
Qed.

Lemma scan_block_inv (block : value) (used : list value) :
  (forall c r x, content_of_block block c -> result_of_content c r ->
                 attr r "file_name" = Ok x -> Q x) ->
  Forall Q used -> Forall Q (snd (scan_block block used)).
Proof.
  intros Hb Hused. unfold scan_block. run_monad.
  destruct (iter _) as [cs | e] eqn:Eit; [| exact Hused].
  apply (for_each_inv (Forall Q)); [| exact Hused].
  intros c s Hc Hs. apply scan_content_inv; [| exact Hs].
  intros r x. apply Hb. exists cs. auto.
Qed.

End Traversal.

Lemma scan_output_cited (resp : response) :
  Forall (cited resp) (snd (scan_output resp [])).
Proof.
  unfold scan_output. run_monad.
  destruct (iter _) as [blocks | e] eqn:Eit; [| constructor].
  apply (for_each_inv (Forall (cited resp))); [| constructor].
  intros block s Hb Hs. apply scan_block_inv; [| exact Hs].
  intros c r x Hc Hr Hx. exists block, c, r.
  split; [exists blocks; auto | auto].
Qed.

Lemma for_each_raises {S A} (E : exn -> Prop) (body : A -> M S unit) (xs : list A) :
  (forall x s e, fst (body x s) = Raise e -> E e) ->
  forall s e, fst (for_each xs body s) = Raise e -> E e.
Proof.
  intros Hbody. induction xs as [| x xs IH]; intros s e; simpl; [discriminate |].
  unfold bind. specialize (Hbody x s).
  destruct (body x s) as [[[] | e1] s1]; simpl in *.
  - apply IH.
  - intros H. apply Hbody. exact H.
Qed.

Lemma attr_raises (v : value) (n : string) (e : exn) : attr v n = Raise e -> traversal_error e.
Proof.
  destruct v; simpl; try (intros H; inversion H; left; reflexivity).
  destruct (lookup_attr n attrs); intros H; inversion H. left; reflexivity.
Qed.

Lemma iter_raises (v : value) (e : exn) : iter v = Raise e -> traversal_error e.
Proof. destruct v; simpl; intros H; inversion H; right; reflexivity. Qed.

Lemma scan_content_raises (c : value) (s : list value) (e : exn) :
  fst (scan_content c s) = Raise e -> traversal_error e.
Proof.
  unfold scan_content. destruct (_ && _); [| discriminate].
  run_monad. destruct (attr c "results") as [results | e1] eqn:Eres; simpl.
  - destruct (iter _) as [rs | e2] eqn:Eit; simpl.
    + apply for_each_raises. intros r t e3. rewrite scan_result_run. discriminate.
    + intros H. inversion H; subst. exact (iter_raises _ _ Eit).
  - intros H. inversion H; subst. exact (attr_raises _ _ _ Eres).
Qed.

Lemma scan_block_raises (b : value) (s : list value) (e : exn) :
  fst (scan_block b s) = Raise e -> traversal_error e.
Proof.
  unfold scan_block. run_monad. destruct (iter _) as [cs | e2] eqn:Eit; simpl.
  - apply for_each_raises. exact scan_content_raises.
  - intros H. inversion H; subst. exact (iter_raises _ _ Eit).
Qed.

Lemma scan_output_raises (resp : response) (s : list value) (e : exn) :
  fst (scan_output resp s) = Raise e -> traversal_error e.
Proof.
  unfold scan_output. run_monad. destruct (iter _) as [bs | e2] eqn:Eit; simpl.
  - apply for_each_raises. exact scan_block_raises.
  - intros H. inversion H; subst. exact (iter_raises _ _ Eit).
Qed.

(** The handler of line 66 catches every error of the traversal: control
    always leaves the [try] statement normally, with the list as the
    traversal left it. *)
Lemma used_files_of_scan (resp : response) :
  used_files_of resp = Ok (snd (scan_output resp [])).
Proof.
  unfold used_files_of, try_except_pass.
  pose proof (scan_output_raises resp []) as Hr.
  destruct (scan_output resp []) as [[[] | e] s]; [reflexivity |].
  destruct (Hr e eq_refl) as [-> | ->]; reflexivity.
Qed.

Lemma scan_result_grows (r : value) (s : list value) : s `prefix_of` snd (scan_result r s).
Proof.
  rewrite scan_result_run. simpl.
  destruct (attr r "file_name"); [apply prefix_app_r |]; reflexivity.
Qed.

Lemma for_each_grows {A} (body : A -> M (list value) unit) (xs : list A) :
  (forall x s, s `prefix_of` snd (body x s)) ->
  forall s, s `prefix_of` snd (for_each xs body s).
Proof.
  intros Hgrow s.
  apply (for_each_inv (fun t => s `prefix_of` t)); [| reflexivity].
  intros x t _ Ht. etransitivity; [exact Ht | apply Hgrow].
Qed.

Lemma scan_content_grows (c : value) (s : list value) : s `prefix_of` snd (scan_content c s).
Proof.
  unfold scan_content. destruct (_ && _); [| reflexivity].
  run_monad. destruct (attr c "results") as [results | e]; [| reflexivity].
  destruct (iter _) as [rs | e]; [| reflexivity].
  apply for_each_grows. exact scan_result_grows.
Qed.

Lemma scan_block_grows (b : value) (s : list value) : s `prefix_of` snd (scan_block b s).
Proof.
  unfold scan_block. run_monad. destruct (iter _) as [cs | e]; [| reflexivity].
  apply for_each_grows. exact scan_content_grows.
Qed.

Lemma prefix_elem (x : value) (s s' : list value) : s `prefix_of` s' -> x ∈ s -> x ∈ s'.
Proof. intros [k ->] Hx. apply elem_of_app. left. exact Hx. Qed.

Lemma scan_content_complete (c r x : value) (s s' : list value) :
  scan_content c s = (Ok tt, s') ->
  result_of_content c r -> attr r "file_name" = Ok x -> x ∈ s'.
Proof.
  intros Hrun [Htest (results & rs & Eres & Eit & Hr)] Hx.
  unfold scan_content in Hrun. apply line62_test in Htest. rewrite Htest in Hrun.
  run_monad. rewrite Eres, Eit in Hrun.
  destruct (for_each_visit scan_result rs scan_result_grows s s' r Hrun Hr) as (s1 & _ & Hpre).
  apply (prefix_elem x _ _ Hpre).
  rewrite scan_result_run. simpl. rewrite Hx. apply elem_of_app. right. left.
Qed.

Lemma scan_block_complete (block c r x : value) (s s' : list value) :
  scan_block block s = (Ok tt, s') ->
  content_of_block block c -> result_of_content c r -> attr r "file_name" = Ok x -> x ∈ s'.
Proof.
  intros Hrun (cs & Eit & Hc) Hr Hx.
  unfold scan_block in Hrun. run_monad. rewrite Eit in Hrun.
  destruct (for_each_visit scan_content cs scan_content_grows s s' c Hrun Hc) as (s1 & Hok & Hpre).
  apply (prefix_elem x _ _ Hpre).
  apply (scan_content_complete c r x s1); [| exact Hr | exact Hx].
  destruct (scan_content c s1) as [o t]. simpl in Hok. subst o. reflexivity.
Qed.

(** A traversal that meets no error collects every cited file name. *)
Lemma scan_output_complete (resp : response) (x : value) (used : list value) :
  scan_output resp [] = (Ok tt, used) -> cited resp x -> x ∈ used.
Proof.
  intros Hrun (block & c & r & (blocks & Eit & Hb) & Hc & Hr & Hx).
  unfold scan_output in Hrun. run_monad. rewrite Eit in Hrun.
  destruct (for_each_visit scan_block blocks scan_block_grows [] used block Hrun Hb)
    as (s1 & Hok & Hpre).
  apply (prefix_elem x _ _ Hpre).
  apply (scan_block_complete block c r x s1); [| exact Hc | exact Hr | exact Hx].
  destruct (scan_block block s1) as [o t]. simpl in Hok. subst o. reflexivity.
Qed.

(** ** [rag_call] *)

Section RagCall.

Variable client : Client.

Lemma rag_call_run (w : world) (messages : list message) (instructions m v : string) :
  model_choice (session w) = Some m -> vs_id (session w) = Some v ->
  rag_call client messages instructions w =
  (match responses_create client (api_log w) (make_request m v instructions messages) with
   | Reply resp =>
       match sorted_set (snd (scan_output resp [])) with
       | Ok files => Ok (py_or (output_text resp) no_text_output, files)
       | Raise e => Raise e
       end
   | Failure msg => Raise (APIError msg)
   end,
   log_call (ResponsesCreate (make_request m v instructions messages)) w).
Proof.
  intros Hm Hv. unfold rag_call. run_monad. rewrite Hm, Hv.
  destruct (responses_create _ _ _) as [resp | msg]; simpl; [| reflexivity].
  rewrite used_files_of_scan.
  destruct (sorted_set _); reflexivity.
Qed.

Lemma rag_call_inv (w w' : world) (messages : list message) (instructions : string)
      (answer : value) (files : list value) :
  rag_call client messages instructions w = (Ok (answer, files), w') ->
  exists m v resp,
    model_choice (session w) = Some m /\ vs_id (session w) = Some v /\
    responses_create client (api_log w) (make_request m v instructions messages) = Reply resp /\
    answer = py_or (output_text resp) no_text_output /\
    sorted_set (snd (scan_output resp [])) = Ok files /\
    w' = log_call (ResponsesCreate (make_request m v instructions messages)) w.
Proof.
  intros H.
  destruct (model_choice (session w)) as [m|] eqn:Hm;
    [| unfold rag_call in H; run_monad; rewrite Hm in H; discriminate].
  destruct (vs_id (session w)) as [v|] eqn:Hv;
    [| unfold rag_call in H; run_monad; rewrite Hm, Hv in H; discriminate].
  rewrite (rag_call_run w messages instructions m v Hm Hv) in H.
  exists m, v.
  destruct (responses_create _ _ _) as [resp | msg]; [| discriminate].
  exists resp.
  destruct (sorted_set _) as [fs | e]; [| discriminate].
  inversion H; subst. auto 10.
Qed.

(** [rag_call] touches neither the session nor the counter. *)
Lemma rag_call_frame (w : world) (messages : list message) (instructions : string) :
  session (snd (rag_call client messages instructions w)) = session w /\
  newly_indexed_count (snd (rag_call client messages instructions w)) = newly_indexed_count w.
Proof.
  destruct (model_choice (session w)) as [m|] eqn:Hm;
    [| unfold rag_call; run_monad; rewrite Hm; auto].
  destruct (vs_id (session w)) as [v|] eqn:Hv;
    [| unfold rag_call; run_monad; rewrite Hm, Hv; auto].
  rewrite (rag_call_run w messages instructions m v Hm Hv). auto.
Qed.

End RagCall.

(** ** Citations *)

Section Citations.

Variable client : Client.

(** C1.  For every response of the endpoint, the citation list that
    [rag_call] returns has no duplicates, is sorted in strictly increasing
    lexicographic order, and holds exactly the collected file names; the
    call can only fail at this step with a [TypeError], and only when a
    collected file name is not a string. *)
Theorem rag_call_citations_sorted_dedup
    (w : world) (messages : list message) (instructions m v : string) (resp : response) :
  model_choice (session w) = Some m ->
  vs_id (session w) = Some v ->
  responses_create client (api_log w) (make_request m v instructions messages) = Reply resp ->
  match fst (rag_call client messages instructions w) with
  | Ok (answer, files) =>
      NoDup files /\ StronglySorted value_lt files /\
      forall x, x ∈ files <-> x ∈ snd (scan_output resp [])
  | Raise e => e = TypeError /\ ~ Forall is_str (snd (scan_output resp []))
  end.
Proof.
  intros Hm Hv Hresp. rewrite (rag_call_run client w messages instructions m v Hm Hv), Hresp.
  simpl. destruct (sorted_set _) as [files | e] eqn:Es.
  - exact (sorted_set_spec _ _ Es).
  - exact (sorted_set_raise _ _ Es).
Qed.

(** C2, as amended.  An error raised during the traversal is swallowed
    where it occurs: [rag_call] returns normally, and its citation list
    holds exactly the file names collected before the error, without
    duplicates and sorted (so it is empty only if none had been collected),
    provided the collected file names are strings. *)
Theorem rag_call_swallows_traversal_errors
    (w : world) (messages : list message) (instructions m v : string) (resp : response)
    (e : exn) (used : list value) :
  model_choice (session w) = Some m ->
  vs_id (session w) = Some v ->
  responses_create client (api_log w) (make_request m v instructions messages) = Reply resp ->
  scan_output resp [] = (Raise e, used) ->
  Forall is_str used ->
  exists files,
    fst (rag_call client messages instructions w)
      = Ok (py_or (output_text resp) no_text_output, files) /\
    NoDup files /\ StronglySorted value_lt files /\
    (forall x, x ∈ files <-> x ∈ used) /\
    (used = [] -> files = []).
Proof.
  intros Hm Hv Hresp Hscan Hstr.
  rewrite (rag_call_run client w messages instructions m v Hm Hv), Hresp, Hscan. simpl.
  destruct (sorted_set_strs used Hstr) as [files Hfiles]. rewrite Hfiles.
  exists files. destruct (sorted_set_spec _ _ Hfiles) as (H1 & H2 & H3).
  split; [reflexivity |]. split; [exact H1 |]. split; [exact H2 |]. split; [exact H3 |].
  intros ->. destruct files as [| x files]; [reflexivity |].
  exfalso. assert (Hx : x ∈ []) by (apply H3; left). inversion Hx.
Qed.

(** C6.  The answer text that [rag_call] returns is never [None] and never
    empty, and it is the placeholder whenever the endpoint's text output
    is [None] or empty. *)
Theorem rag_call_answer_text_placeholder
    (w w' : world) (messages : list message) (instructions : string)
    (answer : value) (files : list value) :
  rag_call client messages instructions w = (Ok (answer, files), w') ->
  truthy answer = true /\ answer <> VNone /\ answer <> VStr "" /\
  exists m v resp,
    responses_create client (api_log w) (make_request m v instructions messages) = Reply resp /\
    (output_text resp = VNone \/ output_text resp = VStr "" -> answer = no_text_output) /\
    (truthy (output_text resp) = true -> answer = output_text resp).
Proof.
  intros H. apply rag_call_inv in H as (m & v & resp & _ & _ & Hresp & -> & _ & _).
  assert (Ht : truthy (py_or (output_text resp) no_text_output) = true).
  { unfold py_or. destruct (truthy (output_text resp)) eqn:E; [exact E | reflexivity]. }
  split; [exact Ht |].
  split; [intros E; rewrite E in Ht; discriminate |].
  split; [intros E; rewrite E in Ht; discriminate |].
  exists m, v, resp. split; [exact Hresp |]. split.
  - unfold py_or. intros [-> | ->]; reflexivity.
  - unfold py_or. intros ->. reflexivity.
Qed.

(** C10.  Every file name in the citation list that [rag_call] returns is
    the [file_name] attribute of a result entry of a content item whose
    type is "tool_result" and whose tool name is "file_search"; nothing
    else in the response contributes.  When the traversal meets no error,
    every such file name is in the list. *)
Theorem citations_only_from_file_search_results
    (w w' : world) (messages : list message) (instructions : string)
    (answer : value) (files : list value) :
  rag_call client messages instructions w = (Ok (answer, files), w') ->
  exists m v resp,
    responses_create client (api_log w) (make_request m v instructions messages) = Reply resp /\
    (forall x, x ∈ files -> cited resp x) /\
    (fst (scan_output resp []) = Ok tt -> forall x, cited resp x -> x ∈ files).
Proof.
  intros H. apply rag_call_inv in H as (m & v & resp & _ & _ & Hresp & _ & Hfiles & _).
  exists m, v, resp. split; [exact Hresp |].
  destruct (sorted_set_spec _ _ Hfiles) as (_ & _ & Hel).
  split.
  - intros x Hx. apply Hel in Hx.
    pose proof (scan_output_cited resp) as Hc. rewrite Forall_forall in Hc. auto.
  - intros Hok x Hx. apply Hel.
    apply (scan_output_complete resp x); [| exact Hx].
    destruct (scan_output resp []) as [o used]. simpl in *. subst o. reflexivity.
Qed.

End Citations.

Import Fixtures.

Lemma rag_call_citations_sorted_dedup_witness :
  fst (rag_call (always repeated_response) [user_message roof_question] chat_instructions ready)
    = Ok (VStr "See the reports.", [VStr "appraisal.pdf"; VStr "hoa.pdf"]) /\
  match fst (rag_call (always repeated_response) [user_message roof_question]
               chat_instructions ready) with
  | Ok (answer, files) =>
      NoDup files /\ StronglySorted value_lt files /\
      forall x, x ∈ files <-> x ∈ snd (scan_output repeated_response [])
  | Raise e => e = TypeError /\ ~ Forall is_str (snd (scan_output repeated_response []))
  end.
Proof.
  split; [vm_compute; reflexivity |].
  apply (rag_call_citations_sorted_dedup (always repeated_response) ready
           [user_message roof_question] chat_instructions "gpt-5-mini" "vs_1" repeated_response);
    reflexivity.
Defined.

(** C2 as stated fails: after one file name is collected, a tool result
    without [results] raises [AttributeError]; the error is swallowed, and
    the file name collected before it is returned. *)
Lemma rag_call_partial_citations :
  ~ (forall (client : Client) (w : world) (messages : list message)
            (instructions m v : string) (resp : response) (e : exn) (used : list value),
        model_choice (session w) = Some m ->
        vs_id (session w) = Some v ->
        responses_create client (api_log w) (make_request m v instructions messages)
          = Reply resp ->
        scan_output resp [] = (Raise e, used) ->
        exists answer, fst (rag_call client messages instructions w) = Ok (answer, [])).
Proof.
  intros H.
  destruct (H (always truncated_response) ready [user_message roof_question]
              chat_instructions "gpt-5-mini" "vs_1" truncated_response
              AttributeError [VStr "inspection.pdf"]
              eq_refl eq_refl eq_refl eq_refl) as [answer Ha].
  vm_compute in Ha. discriminate Ha.
Qed.

Lemma rag_call_swallows_traversal_errors_witness :
  scan_output truncated_response [] = (Raise AttributeError, [VStr "inspection.pdf"]) /\
  exists files,
    fst (rag_call (always truncated_response) [user_message roof_question]
           chat_instructions ready)
      = Ok (py_or (output_text truncated_response) no_text_output, files) /\
    NoDup files /\ StronglySorted value_lt files /\
    (forall x, x ∈ files <-> x ∈ [VStr "inspection.pdf"]) /\
    ([VStr "inspection.pdf"] = [] -> files = []).
Proof.
  split; [reflexivity |].
  apply (rag_call_swallows_traversal_errors (always truncated_response) ready
           [user_message roof_question] chat_instructions "gpt-5-mini" "vs_1"
           truncated_response AttributeError [VStr "inspection.pdf"]);
    try reflexivity.
  constructor; [exists "inspection.pdf"; reflexivity | constructor].
Defined.

Lemma rag_call_answer_text_placeholder_witness :
  rag_call (always silent_response) [user_message roof_question] chat_instructions ready
    = (Ok (no_text_output, []),
       log_call (ResponsesCreate (make_request "gpt-5-mini" "vs_1" chat_instructions
                                    [user_message roof_question])) ready) /\
  truthy no_text_output = true.
Proof.
  assert (Hrun : rag_call (always silent_response) [user_message roof_question]
                   chat_instructions ready
                 = (Ok (no_text_output, []),
                    log_call (ResponsesCreate (make_request "gpt-5-mini" "vs_1" chat_instructions
                                                 [user_message roof_question])) ready))
    by (vm_compute; reflexivity).
  split; [exact Hrun |].
  exact (proj1 (rag_call_answer_text_placeholder (always silent_response) _ _ _ _ _ _ Hrun)).
Defined.

Lemma citations_only_from_file_search_results_witness :
  exists resp,
    (forall x, x ∈ [VStr "inspection.pdf"] -> cited resp x) /\
    (fst (scan_output resp []) = Ok tt -> forall x, cited resp x -> x ∈ [VStr "inspection.pdf"]).
Proof.
  assert (Hrun : rag_call (always roof_response) [user_message roof_question]
                   chat_instructions ready
                 = (Ok (VStr "Roof is in fair condition.", [VStr "inspection.pdf"]),
                    log_call (ResponsesCreate (make_request "gpt-5-mini" "vs_1" chat_instructions
                                                 [user_message roof_question])) ready))
    by (vm_compute; reflexivity).
  destruct (citations_only_from_file_search_results (always roof_response) _ _ _ _ _ _ Hrun)
    as (m & v & resp & _ & H1 & H2).
  exists resp. split; [exact H1 | exact H2].
Defined.

(** ** [ask_model] and the investor summary *)

Lemma copy_messages_id (h : list message) : copy_messages h = h.
Proof.
  unfold copy_messages. induction h as [| [r c] h IH]; [reflexivity |].
  simpl. rewrite IH. reflexivity.
Qed.

Section AskModel.

Variable client : Client.

(** [ask_model] on a session that has its keys. *)
Lemma ask_model_run (w : world) (question instructions : string) (update_history : bool)
      (h : list message) (m v : string) :
  chat_history (session w) = Some h ->
  model_choice (session w) = Some m -> vs_id (session w) = Some v ->
  ask_model client question instructions update_history w =
  let w1 := log_call (ResponsesCreate
                        (make_request m v instructions (h ++ [user_message question]))) w in
  match fst (rag_call client (h ++ [user_message question]) instructions w) with
  | Ok (answer_text, used_files) =>
      (Ok (answer_text, used_files),
       if update_history
       then on_session (set_chat_history
                          (Some (h ++ [user_message question; assistant_message answer_text]))) w1
       else w1)
  | Raise e => (Raise e, w1)
  end.
Proof.
  intros Hh Hm Hv. unfold ask_model.
  unfold bind at 1. unfold read at 1. rewrite Hh, copy_messages_id.
  unfold bind at 1.
  rewrite (rag_call_run client w (h ++ [user_message question]) instructions m v Hm Hv).
  cbn [fst snd].
  destruct (match responses_create client _ _ with Reply _ => _ | Failure _ => _ end)
    as [[answer files] | e]; [| reflexivity].
  destruct update_history; run_monad; rewrite ?Hh; [| reflexivity].
  rewrite <- app_assoc. reflexivity.
Qed.

(** [ask_model] on a session that lacks a key it reads. *)
Lemma ask_model_not_ready (w : world) (question instructions : string) (update_history : bool) :
  chat_history (session w) = None \/ model_choice (session w) = None \/ vs_id (session w) = None ->
  ask_model client question instructions update_history w = (Raise AttributeError, w).
Proof.
  intros H. unfold ask_model, rag_call. run_monad.
  destruct (chat_history (session w)) as [h|]; [| reflexivity].
  destruct (model_choice (session w)) as [m|]; [| reflexivity].
  destruct (vs_id (session w)) as [v|]; [| reflexivity].
  destruct H as [H | [H | H]]; discriminate.
Qed.

Lemma ready_or_not (w : world) :
  (exists h m v, chat_history (session w) = Some h /\ model_choice (session w) = Some m /\
                 vs_id (session w) = Some v) \/
  (chat_history (session w) = None \/ model_choice (session w) = None \/ vs_id (session w) = None).
Proof.
  destruct (chat_history (session w)) as [h|]; [| auto].
  destruct (model_choice (session w)) as [m|]; [| auto].
  destruct (vs_id (session w)) as [v|]; [| auto].
  left. eauto 10.
Qed.

(** C3.  The request that [ask_model] submits carries the transcript
    followed by the new user message: for a transcript of length 2N its
    message list has length 2N+1, keeps every transcript entry at its
    position, and ends with the new message. *)
Theorem ask_model_request
    (w : world) (question instructions : string) (update_history : bool)
    (h : list message) (m v : string) (N : nat) :
  chat_history (session w) = Some h ->
  model_choice (session w) = Some m ->
  vs_id (session w) = Some v ->
  length h = 2 * N ->
  exists req,
    api_log (snd (ask_model client question instructions update_history w))
      = api_log w ++ [ResponsesCreate req] /\
    req_input req = h ++ [user_message question] /\
    length (req_input req) = 2 * N + 1 /\
    (forall i msg, h !! i = Some msg -> req_input req !! i = Some msg) /\
    last (req_input req) = Some (user_message question).
Proof.
  intros Hh Hm Hv Hlen.
  exists (make_request m v instructions (h ++ [user_message question])).
  split.
  - rewrite (ask_model_run w question instructions update_history h m v Hh Hm Hv).
    cbn zeta.
    destruct (fst (rag_call client _ _ w)) as [[answer files] | e]; [| reflexivity].
    destruct update_history; reflexivity.
  - cbn [req_input make_request]. split; [reflexivity |].
    split; [rewrite length_app; simpl; lia |].
    split; [intros i msg Hi; apply lookup_app_l_Some; exact Hi | apply last_snoc].
Qed.

(** C7.  Generating the investor summary leaves the session, and so the
    transcript, exactly as it was, and so does [ask_model] with
    [update_history=False]; the summary request does carry the transcript
    as context, followed by the memo prompt. *)
Theorem investor_summary_preserves_history (w : world) :
  (forall clicked, session (snd (investor_section client clicked w)) = session w) /\
  (forall question instructions,
      session (snd (ask_model client question instructions false w)) = session w) /\
  (forall h m v indexed,
      chat_history (session w) = Some h -> model_choice (session w) = Some m ->
      vs_id (session w) = Some v -> indexed_filenames (session w) = Some indexed ->
      indexed <> ∅ ->
      api_log (snd (investor_section client true w))
      = api_log w ++ [ResponsesCreate (make_request m v investor_instructions
                                         (h ++ [user_message investor_prompt]))]).
Proof.
  split; [| split].
  - intros clicked. unfold investor_section. run_monad.
    destruct (indexed_filenames (session w)) as [indexed|]; [| reflexivity].
    destruct (decide (indexed = ∅)); [reflexivity |].
    destruct clicked; [| reflexivity].
    destruct (chat_history (session w)) as [h|]; [| reflexivity].
    pose proof (rag_call_frame client w (copy_messages h ++ [user_message investor_prompt])
                  investor_instructions) as [Hs _].
    destruct (rag_call client _ _ w) as [[r | e] w1]; exact Hs.
  - intros question instructions.
    destruct (ready_or_not w) as [(h & m & v & Hh & Hm & Hv) | Hnot].
    + rewrite (ask_model_run w question instructions false h m v Hh Hm Hv). cbn zeta.
      destruct (fst (rag_call client _ _ w)) as [[answer files] | e]; reflexivity.
    + rewrite (ask_model_not_ready w question instructions false Hnot). reflexivity.
  - intros h m v indexed Hh Hm Hv Hi Hne. unfold investor_section. run_monad.
    rewrite Hi. destruct (decide (indexed = ∅)); [contradiction |].
    rewrite Hh, copy_messages_id.
    rewrite (rag_call_run client w _ investor_instructions m v Hm Hv).
    destruct (match responses_create client _ _ with Reply _ => _ | Failure _ => _ end);
      reflexivity.
Qed.

End AskModel.

Lemma ask_model_request_witness :
  exists req,
    api_log (snd (ask_model (always roof_response) roof_question chat_instructions true ready))
      = api_log ready ++ [ResponsesCreate req] /\
    req_input req = [] ++ [user_message roof_question] /\
    length (req_input req) = 2 * 0 + 1 /\
    (forall i msg, @nil message !! i = Some msg -> req_input req !! i = Some msg) /\
    last (req_input req) = Some (user_message roof_question).
Proof.
  apply (ask_model_request (always roof_response) ready roof_question chat_instructions true
           [] "gpt-5-mini" "vs_1" 0); reflexivity.
Defined.

Lemma investor_summary_preserves_history_witness :
  session (snd (investor_section (always roof_response) true ready)) = session ready /\
  api_log (snd (investor_section (always roof_response) true ready))
  = api_log ready ++ [ResponsesCreate (make_request "gpt-5-mini" "vs_1" investor_instructions
                                         ([] ++ [user_message investor_prompt]))].
Proof.
  destruct (investor_summary_preserves_history (always roof_response) ready) as (Ha & _ & Hc).
  split; [apply Ha |].
  apply (Hc [] "gpt-5-mini" "vs_1" {[ "inspection.pdf" ]}); try reflexivity.
  intros H. assert (Hin : "inspection.pdf" ∈ (∅ : gset string)) by (rewrite <- H; set_solver).
  set_solver.
Defined.

(** ** Indexing uploaded documents *)

Section Indexing.

Variable client : Client.

(** A file whose name is already indexed is skipped: no call, no change. *)
Lemma index_file_known (f : uploaded_file) (w : world) (indexed : gset string) :
  indexed_filenames (session w) = Some indexed -> name f ∈ indexed ->
  index_file client f w = (Ok tt, w).
Proof.
  intros Hi Hin. unfold index_file. run_monad. rewrite Hi.
  destruct (decide (name f ∈ indexed)); [reflexivity | contradiction].
Qed.

(** What a completed iteration has done. *)
Lemma index_file_ok (f : uploaded_file) (w w1 : world) (indexed : gset string) :
  indexed_filenames (session w) = Some indexed ->
  index_file client f w = (Ok tt, w1) ->
  indexed_filenames (session w1) = Some ({[ name f ]} ∪ indexed) /\
  newly_indexed_count w1
    = newly_indexed_count w + (if decide (name f ∈ indexed) then 0 else 1).
Proof.
  intros Hi. unfold index_file. run_monad. rewrite Hi.
  destruct (decide (name f ∈ indexed)) as [Hin | Hnotin].
  - intros H. inversion H; subst w1. rewrite Hi. split; [| lia].
    f_equal. set_solver.
  - destruct (files_create client _ _ _ _) as [fid | msg]; simpl; [| discriminate].
    destruct (vs_id (session w)) as [v|]; [| discriminate].
    destruct (vector_stores_files_create client _ _ _) as [[] | msg]; simpl; [| discriminate].
    rewrite Hi. intros H. inversion H; subst w1. simpl. split; reflexivity.
Qed.

Lemma upload_loop_ok (files : list uploaded_file) :
  forall (w w' : world) (indexed : gset string),
    indexed_filenames (session w) = Some indexed ->
    for_each files (index_file client) w = (Ok tt, w') ->
    indexed_filenames (session w') = Some (indexed ∪ list_to_set (name <$> files)) /\
    newly_indexed_count w'
      = newly_indexed_count w + size (list_to_set (name <$> files) ∖ indexed : gset string).
Proof.
  induction files as [| f files IH]; intros w w' indexed Hi Hrun.
  - inversion Hrun; subst w'. rewrite Hi. split.
    + f_equal. set_solver.
    + replace (list_to_set (name <$> []) ∖ indexed : gset string) with (∅ : gset string)
        by set_solver.
      rewrite size_empty. lia.
  - simpl in Hrun. unfold bind in Hrun.
    destruct (index_file client f w) as [[[] | e] w1] eqn:Ef; [| discriminate].
    destruct (index_file_ok f w w1 indexed Hi Ef) as [Hi1 Hc1].
    destruct (IH w1 w' _ Hi1 Hrun) as [Hi' Hc'].
    rewrite Hi', Hc', Hc1. rewrite fmap_cons, list_to_set_cons. split.
    + f_equal. set_solver.
    + destruct (decide (name f ∈ indexed)) as [Hin | Hnotin].
      * replace (({[name f]} ∪ list_to_set (name <$> files)) ∖ indexed : gset string)
          with (list_to_set (name <$> files) ∖ ({[name f]} ∪ indexed) : gset string)
          by set_solver.
        lia.
      * replace (({[name f]} ∪ list_to_set (name <$> files)) ∖ indexed : gset string)
          with ({[name f]} ∪ list_to_set (name <$> files) ∖ ({[name f]} ∪ indexed)
                : gset string)
          by (apply set_eq; intros x; destruct (decide (x = name f)); set_solver).
        rewrite (size_union (C := gset string) {[name f]}); [| set_solver].
        rewrite size_singleton. lia.
Qed.

Lemma upload_section_run (files : list uploaded_file) (w : world) :
  upload_section client files w = for_each files (index_file client) (set_count 0 w).
Proof. unfold upload_section. run_monad. destruct files; reflexivity. Qed.

(** C5.  When the indexing loop completes, the indexed names are the
    names indexed before together with the distinct names uploaded,
    whatever their order and repetitions, and the counter is the number
    of distinct new names; a file whose name is already indexed is a
    no-op. *)
Theorem register_indexed_idempotent
    (files : list uploaded_file) (w w' : world) (indexed : gset string) :
  indexed_filenames (session w) = Some indexed ->
  upload_section client files w = (Ok tt, w') ->
  indexed_filenames (session w') = Some (indexed ∪ list_to_set (name <$> files)) /\
  newly_indexed_count w' = size (list_to_set (name <$> files) ∖ indexed : gset string) /\
  (forall f w1 known, indexed_filenames (session w1) = Some known -> name f ∈ known ->
                      index_file client f w1 = (Ok tt, w1)).
Proof.
  intros Hi Hrun. rewrite upload_section_run in Hrun.
  destruct (upload_loop_ok files (set_count 0 w) w' indexed Hi Hrun) as [H1 H2].
  split; [exact H1 |]. split; [exact H2 |].
  intros f w1 known. apply index_file_known.
Qed.

Lemma failed_upload_leaves_session_aux (f : uploaded_file) (w w' : world) (e : exn) :
  index_file client f w = (Raise e, w') ->
  session w' = session w /\ newly_indexed_count w' = newly_indexed_count w.
Proof.
  unfold index_file. run_monad.
  destruct (indexed_filenames (session w)) as [indexed|] eqn:Hi.
  - destruct (decide (name f ∈ indexed)); [discriminate |].
    destruct (files_create client _ _ _ _) as [fid | msg]; simpl.
    + destruct (vs_id (session w)) as [v|].
      * destruct (vector_stores_files_create client _ _ _) as [[] | msg]; simpl.
        -- rewrite Hi. discriminate.
        -- intros H. inversion H; subst w'. simpl. auto.
      * intros H. inversion H; subst w'. simpl. auto.
    + intros H. inversion H; subst w'. simpl. auto.
  - intros H. inversion H; subst w'. auto.
Qed.

(** C8.  When the upload-and-index step of a file raises, whether at the
    upload or at the attachment, the session (with the indexed names) and
    the counter are what they were before the step. *)
Theorem failed_upload_leaves_session (f : uploaded_file) (w w' : world) (e : exn) :
  index_file client f w = (Raise e, w') ->
  session w' = session w /\
  indexed_filenames (session w') = indexed_filenames (session w) /\
  newly_indexed_count w' = newly_indexed_count w.
Proof.
  intros H. destruct (failed_upload_leaves_session_aux f w w' e H) as [Hs Hc].
  rewrite Hs. auto.
Qed.

(** A loop that raises stops at the failing file: the session and the
    counter are those left by the files before it. *)
Lemma upload_loop_failure (files : list uploaded_file) :
  forall (w w' : world) (e : exn),
    for_each files (index_file client) w = (Raise e, w') ->
    exists done f rest w1,
      files = done ++ f :: rest /\
      for_each done (index_file client) w = (Ok tt, w1) /\
      index_file client f w1 = (Raise e, w') /\
      session w' = session w1 /\ newly_indexed_count w' = newly_indexed_count w1.
Proof.
  induction files as [| f files IH]; intros w w' e Hrun; [discriminate |].
  simpl in Hrun. unfold bind in Hrun.
  destruct (index_file client f w) as [[[] | e1] w1] eqn:Ef.
  - destruct (IH w1 w' e Hrun) as (done & g & rest & w2 & -> & Hdone & Hg & Hs & Hc).
    exists (f :: done), g, rest, w2. split; [reflexivity |].
    split; [simpl; unfold bind; rewrite Ef; exact Hdone |]. auto.
  - inversion Hrun; subst e1 w1.
    destruct (failed_upload_leaves_session_aux f w w' e Ef) as [Hs Hc].
    exists [], f, files, w. auto.
Qed.

End Indexing.

Lemma register_indexed_idempotent_witness :
  let twice := [ {| name := "appraisal.pdf"; data := [] |};
                 {| name := "appraisal.pdf"; data := [] |} ] in
  exists w',
    upload_section (always roof_response) twice ready = (Ok tt, w') /\
    indexed_filenames (session w')
      = Some ({[ "inspection.pdf" ]} ∪ list_to_set (name <$> twice)) /\
    newly_indexed_count w' = 1 /\
    length (api_log w') = 2.
Proof.
  intros twice.
  destruct (upload_section (always roof_response) twice ready) as [o w'] eqn:Hrun.
  assert (Ho : o = Ok tt) by (apply (f_equal fst) in Hrun; vm_compute in Hrun; congruence).
  subst o. exists w'. split; [reflexivity |].
  destruct (register_indexed_idempotent (always roof_response) twice ready w'
              {[ "inspection.pdf" ]} eq_refl Hrun) as (H1 & H2 & _).
  split; [exact H1 |]. split.
  - rewrite H2. vm_compute. reflexivity.
  - apply (f_equal (fun r => length (api_log (snd r)))) in Hrun.
    vm_compute in Hrun. symmetry. exact Hrun.
Defined.

Lemma failed_upload_leaves_session_witness :
  let f := {| name := "appraisal.pdf"; data := [] |} in
  let w' := log_call (FilesCreate "appraisal.pdf" [] "assistants") ready in
  index_file rejecting_uploads f ready = (Raise (APIError "quota exceeded"), w') /\
  session w' = session ready /\
  indexed_filenames (session w') = indexed_filenames (session ready) /\
  newly_indexed_count w' = newly_indexed_count ready.
Proof.
  intros f w'.
  assert (Hrun : index_file rejecting_uploads f ready = (Raise (APIError "quota exceeded"), w'))
    by (vm_compute; reflexivity).
  split; [exact Hrun |].
  exact (failed_upload_leaves_session rejecting_uploads f ready w' _ Hrun).
Defined.

(** ** Properties kept along a run of the script *)

Section Keeps.

Variable P : world -> Prop.

Lemma keeps_bind {A B} (m : M world A) (k : A -> M world B) :
  keeps P m -> (forall a, keeps P (k a)) -> keeps P (bind m k).
Proof.
  intros Hm Hk w Hw. unfold bind. specialize (Hm w Hw).
  destruct (m w) as [[a | e] w1]; simpl in *; [apply Hk; exact Hm | exact Hm].
Qed.

Lemma keeps_for_each {A} (xs : list A) (body : A -> M world unit) :
  (forall x, keeps P (body x)) -> keeps P (for_each xs body).
Proof. intros Hbody w Hw. apply for_each_inv; [| exact Hw]. intros x s _. apply Hbody. Qed.

Lemma keeps_ret {A} (a : A) : keeps P (ret a).
Proof. intros w Hw. exact Hw. Qed.

Lemma keeps_raise {A} (e : exn) : keeps P (raise (A := A) e).
Proof. intros w Hw. exact Hw. Qed.

Lemma keeps_modify (f : world -> world) : (forall w, P w -> P (f w)) -> keeps P (modify f).
Proof. intros Hf w Hw. apply Hf. exact Hw. Qed.

End Keeps.

Lemma calm_bind {A B} (m : M world A) (k : A -> M world B) :
  calm m -> (forall a, calm (k a)) -> calm (bind m k).
Proof.
  intros Hm Hk w. unfold bind. specialize (Hm w).
  destruct (m w) as [[a | e] w1]; simpl in *; [apply Hk | congruence].
Qed.

Lemma calm_for_each {A} (xs : list A) (body : A -> M world unit) :
  (forall x, calm (body x)) -> calm (for_each xs body).
Proof.
  intros Hbody w H.
  apply (for_each_raises (fun e => e <> RerunException) body xs) in H; [congruence |].
  intros x s e He Heq. subst e. exact (Hbody x s He).
Qed.

Lemma calm_ret {A} (a : A) : calm (ret (S := world) a).
Proof. intros w. discriminate. Qed.

Lemma calm_modify (f : world -> world) : calm (modify f).
Proof. intros w. discriminate. Qed.

Lemma calm_read {A} (field : session_state -> option A) : calm (read field).
Proof. intros w. unfold read. destruct (field (session w)); discriminate. Qed.

Lemma calm_call {A} (c : api_call) (answer : list api_call -> reply A) : calm (call c answer).
Proof. intros w. unfold call. simpl. destruct (answer (api_log w)); discriminate. Qed.

Section Script.

Variable client : Client.

Lemma calm_rag_call (messages : list message) (instructions : string) :
  calm (rag_call client messages instructions).
Proof.
  unfold rag_call.
  apply calm_bind; [apply calm_read | intros m].
  apply calm_bind; [apply calm_read | intros v].
  apply calm_bind; [apply calm_call | intros resp].
  intros w. run_monad. rewrite used_files_of_scan. simpl.
  destruct (sorted_set _) as [files | e] eqn:Es; simpl; [discriminate |].
  apply sorted_set_raise in Es as [-> _]. discriminate.
Qed.

Lemma calm_ask_model (question instructions : string) (update_history : bool) :
  calm (ask_model client question instructions update_history).
Proof.
  unfold ask_model.
  apply calm_bind; [apply calm_read | intros h].
  apply calm_bind; [apply calm_rag_call | intros [answer files]].
  apply calm_bind; [| intros; apply calm_ret].
  destruct update_history; [| apply calm_ret].
  apply calm_bind; [apply calm_read | intros h1].
  apply calm_bind; [apply calm_modify | intros _].
  apply calm_bind; [apply calm_read | intros h2]. apply calm_modify.
Qed.

Lemma calm_index_file (f : uploaded_file) : calm (index_file client f).
Proof.
  unfold index_file.
  apply calm_bind; [apply calm_read | intros indexed].
  destruct (decide (name f ∈ indexed)); [apply calm_ret |].
  apply calm_bind; [apply calm_call | intros fid].
  apply calm_bind; [apply calm_read | intros v].
  apply calm_bind; [apply calm_call | intros _].
  apply calm_bind; [apply calm_read | intros indexed'].
  apply calm_bind; [apply calm_modify | intros _].
  apply calm_bind; [intros w; discriminate | intros w1]. apply calm_modify.
Qed.

Lemma calm_init_session : calm (init_session client).
Proof.
  unfold init_session.
  apply calm_bind; [intros w; discriminate | intros w0].
  apply calm_bind.
  { destruct (vs_id (session w0)); [apply calm_ret |].
    apply calm_bind; [apply calm_call | intros id; apply calm_modify]. }
  intros _. apply calm_bind; [intros w; discriminate | intros w1].
  apply calm_bind.
  { destruct (indexed_filenames (session w1)); [apply calm_ret | apply calm_modify]. }
  intros _. apply calm_bind; [intros w; discriminate | intros w2].
  apply calm_bind.
  { destruct (chat_history (session w2)); [apply calm_ret | apply calm_modify]. }
  intros _. apply calm_bind; [intros w; discriminate | intros w3].
  destruct (model_choice (session w3)); [apply calm_ret | apply calm_modify].
Qed.

Lemma calm_upload_section (files : list uploaded_file) : calm (upload_section client files).
Proof.
  unfold upload_section. apply calm_bind; [apply calm_modify | intros _].
  destruct files; [apply calm_ret |]. apply calm_for_each. exact calm_index_file.
Qed.

Lemma calm_investor_section (clicked : bool) : calm (investor_section client clicked).
Proof.
  unfold investor_section.
  apply calm_bind; [apply calm_read | intros indexed].
  destruct (decide (indexed = ∅)); [apply calm_ret |].
  destruct clicked; [| apply calm_ret].
  apply calm_bind; [apply calm_read | intros h].
  apply calm_bind; [apply calm_rag_call | intros; apply calm_ret].
Qed.

End Script.

(** ** The transcript along a session *)

Lemma quiet_intro {A} (m : M world A) :
  calm m -> (forall t, keeps (fun w => transcript w = t) m) -> quiet m.
Proof. intros Hc Hk w. split; [apply Hc | apply (Hk (transcript w)); reflexivity]. Qed.

Lemma quiet_then {A B} (follow_up : option string) (m : M world A) (k : A -> M world B) :
  quiet m -> (forall a, turn_or_quiet follow_up (k a)) -> turn_or_quiet follow_up (bind m k).
Proof.
  intros Hm Hk w. unfold bind. destruct (Hm w) as [Hne Ht].
  destruct (m w) as [[a | e] w1]; simpl in *.
  - rewrite <- Ht. apply Hk.
  - right. split; [congruence | exact Ht].
Qed.

Lemma then_quiet {A B} (follow_up : option string) (m : M world A) (k : A -> M world B) :
  turn_or_quiet follow_up m -> (forall a, quiet (k a)) -> turn_or_quiet follow_up (bind m k).
Proof.
  intros Hm Hk w. unfold bind. specialize (Hm w).
  destruct (m w) as [[a | e] w1]; simpl in *.
  - destruct Hm as [[Hr _] | [_ Ht]]; [discriminate |].
    right. rewrite <- Ht. apply Hk.
  - destruct Hm as [[Hr Ht] | [Hne Ht]].
    + left. split; [congruence | exact Ht].
    + right. split; [congruence | exact Ht].
Qed.

Lemma same_session_transcript (w w' : world) :
  session w' = session w -> transcript w' = transcript w.
Proof. unfold transcript. intros ->. reflexivity. Qed.

Section Transcript.

Variable client : Client.

Lemma quiet_init_session : quiet (init_session client).
Proof.
  intros w. split; [apply calm_init_session |].
  destruct w as [[[v|] [indexed|] [h|] [m|]] n log];
    unfold init_session, transcript; run_monad; try reflexivity;
    destruct (vector_stores_create client _ _) as [id | msg]; reflexivity.
Qed.

Lemma index_file_transcript (f : uploaded_file) (t : list message) :
  keeps (fun w => transcript w = t) (index_file client f).
Proof.
  intros w Hw. unfold index_file, transcript in *. run_monad.
  destruct (indexed_filenames (session w)) as [indexed|] eqn:Hi; [| exact Hw].
  destruct (decide (name f ∈ indexed)); [exact Hw |].
  destruct (files_create client _ _ _ _) as [fid | msg]; simpl; [| exact Hw].
  destruct (vs_id (session w)) as [v|]; [| exact Hw].
  destruct (vector_stores_files_create client _ _ _) as [[] | msg]; simpl; [| exact Hw].
  rewrite Hi. exact Hw.
Qed.

Lemma quiet_upload_section (files : list uploaded_file) : quiet (upload_section client files).
Proof.
  apply quiet_intro; [apply calm_upload_section |].
  intros t. unfold upload_section.
  apply keeps_bind; [apply keeps_modify; intros w Hw; exact Hw | intros _].
  destruct files; [apply keeps_ret |].
  apply keeps_for_each. intros f. apply index_file_transcript.
Qed.

Lemma quiet_model_section (choice : model_option) : quiet (model_section choice).
Proof. intros w. split; [discriminate | reflexivity]. Qed.

Lemma quiet_investor_section (clicked : bool) : quiet (investor_section client clicked).
Proof.
  intros w. split; [apply calm_investor_section |].
  apply same_session_transcript.
  unfold investor_section. run_monad.
  destruct (indexed_filenames (session w)) as [indexed|]; [| reflexivity].
  destruct (decide (indexed = ∅)); [reflexivity |].
  destruct clicked; [| reflexivity].
  destruct (chat_history (session w)) as [h|]; [| reflexivity].
  pose proof (rag_call_frame client w (copy_messages h ++ [user_message investor_prompt])
                investor_instructions) as [Hs _].
  destruct (rag_call client _ _ w) as [[r | e] w1]; exact Hs.
Qed.

Ltac quiet_case := right; split; [simpl; discriminate | reflexivity].

Lemma chat_section_turn (follow_up : option string) :
  turn_or_quiet follow_up (chat_section client follow_up).
Proof.
  intros w. unfold chat_section, bind, read, raise.
  destruct (indexed_filenames (session w)) as [indexed|];
    [| quiet_case].
  destruct (decide (indexed = ∅)); [quiet_case |].
  destruct follow_up as [q|]; [| quiet_case].
  destruct (truthy (VStr q)); [| quiet_case].
  destruct (ready_or_not w) as [(h & m & v & Hh & Hm & Hv) | Hnot].
  - rewrite (ask_model_run client w q chat_instructions true h m v Hh Hm Hv). cbn zeta.
    pose proof (calm_rag_call client (h ++ [user_message q]) chat_instructions w) as Hcalm.
    destruct (fst (rag_call client _ _ w)) as [[answer files] | e].
    + left. split; [reflexivity |]. exists q, answer. split; [reflexivity |].
      unfold transcript. simpl. rewrite Hh. reflexivity.
    + right. split; [simpl; congruence | reflexivity].
  - rewrite (ask_model_not_ready client w q chat_instructions true Hnot).
    quiet_case.
Qed.

Lemma script_turn (u : ui) : turn_or_quiet (chat_input u) (script client u).
Proof.
  unfold script.
  apply quiet_then; [apply quiet_init_session | intros _].
  apply quiet_then; [apply quiet_upload_section | intros _].
  apply quiet_then; [apply quiet_model_section | intros _].
  apply then_quiet; [apply chat_section_turn | intros _].
  apply quiet_investor_section.
Qed.

Lemma not_rerun {A} (o : outcome A) :
  o <> Raise RerunException ->
  match o with Raise RerunException => true | _ => false end = false.
Proof. destruct o as [a | []]; try reflexivity. intros H. contradiction. Qed.

(** A run ends in [st.rerun()] exactly when, after the first three parts
    of the script, some document is indexed, the chat input is a
    non-empty string, and [ask_model] returns for it. *)
Lemma successful_turn_iff (u : ui) (w : world) :
  successful_turn client u w = true <->
  exists w1 q r w2,
    (init_session client ;;; upload_section client (uploaded_files u) ;;;
     model_section (selectbox u)) w = (Ok tt, w1) /\
    (exists indexed, indexed_filenames (session w1) = Some indexed /\ indexed <> ∅) /\
    chat_input u = Some q /\ truthy (VStr q) = true /\
    ask_model client q chat_instructions true w1 = (Ok r, w2).
Proof.
  unfold successful_turn, script, bind.
  pose proof (calm_init_session client w) as Ha.
  destruct (init_session client w) as [[[] | e] wa].
  2: { rewrite (not_rerun _ Ha). split; [discriminate |].
       intros (w1 & q & r & w2 & H & _). discriminate. }
  clear Ha. pose proof (calm_upload_section client (uploaded_files u) wa) as Hb.
  destruct (upload_section client (uploaded_files u) wa) as [[[] | e] wb].
  2: { rewrite (not_rerun _ Hb). split; [discriminate |].
       intros (w1 & q & r & w2 & H & _). discriminate. }
  clear Hb. unfold model_section at 1 2, modify. cbn [fst snd].
  set (w1 := on_session (set_model_choice (Some (model_name (selectbox u)))) wb).
  pose proof (calm_investor_section client (button u)) as Hinv.
  unfold chat_section, bind, read, raise, ret.
  destruct (indexed_filenames (session w1)) as [indexed|] eqn:Hi.
  2: { cbn beta iota zeta. split; [discriminate |].
       intros (w1' & q & r & w2 & H & (ix & Hix & _) & _). inversion H; subst w1'.
       fold w1 in Hix. congruence. }
  destruct (decide (indexed = ∅)) as [He | Hne].
  { cbn beta iota zeta. rewrite (not_rerun _ (Hinv w1)). split; [discriminate |].
    intros (w1' & q & r & w2 & H & (ix & Hix & Hn) & _). inversion H; subst w1'.
    fold w1 in Hix. congruence. }
  destruct (chat_input u) as [q|] eqn:Hq.
  2: { cbn beta iota zeta. rewrite (not_rerun _ (Hinv w1)). split; [discriminate |].
       intros (w1' & q & r & w2 & _ & _ & H & _). discriminate. }
  destruct (truthy (VStr q)) eqn:Ht.
  2: { cbn beta iota zeta. rewrite (not_rerun _ (Hinv w1)). split; [discriminate |].
       intros (w1' & q' & r & w2 & _ & _ & H & Ht' & _). inversion H; subst q'. congruence. }
  pose proof (calm_ask_model client q chat_instructions true w1) as Hask.
  destruct (ask_model client q chat_instructions true w1) as [[r | e] w2] eqn:Eask.
  - split; [intros _ | reflexivity].
    exists w1, q, r, w2. split; [reflexivity |]. split; [eauto |]. auto.
  - cbn [fst] in *. rewrite (not_rerun _ Hask). split; [discriminate |].
    intros (w1' & q' & r & w2' & H & _ & Hq' & _ & Hr). inversion H; subst w1'.
    inversion Hq'; subst q'. fold w1 in Hr. congruence.
Qed.

(** C4.  Along any sequence of runs of the script the transcript only
    grows at its end: it is the transcript at the start followed by one
    user entry and one assistant entry per successful chat turn, so its
    length grows by exactly twice the number of successful turns (2N from
    the empty transcript) and no stored entry is changed or removed. *)
Theorem transcript_append_only (us : list ui) (w : world) :
  exists turns : list (string * value),
    transcript (run_session client us w) = transcript w ++ flat_map turn_entries turns /\
    length turns = successful_turns client us w /\
    length (transcript (run_session client us w))
      = length (transcript w) + 2 * successful_turns client us w.
Proof.
  revert w. induction us as [| u us IH]; intros w.
  - exists []. simpl. rewrite app_nil_r. split; [reflexivity |]. split; [reflexivity | lia].
  - destruct (IH (snd (script client u w))) as (turns & Ht & Hn & Hl).
    change (run_session client (u :: us) w)
      with (run_session client us (snd (script client u w))).
    cbn [successful_turns]. unfold successful_turn.
    destruct (script_turn u w) as [[Hr (q & a & _ & Hq)] | [Hne Hq]].
    + exists ((q, a) :: turns). rewrite Hr. split; [| split].
      * rewrite Ht, Hq. simpl. rewrite <- app_assoc. reflexivity.
      * simpl. lia.
      * rewrite Hl, Hq, length_app. simpl. lia.
    + exists turns.
      assert (Hs : match fst (script client u w) with
                   | Raise RerunException => true
                   | _ => false
                   end = false).
      { destruct (fst (script client u w)) as [[] | []]; try reflexivity. contradiction. }
      rewrite Hs. split; [| split].
      * rewrite Ht, Hq. reflexivity.
      * simpl. exact Hn.
      * rewrite Hl, Hq. simpl. lia.
Qed.

End Transcript.

(** ** The vector store of a session *)

Lemma creation_count_snoc (log : list api_call) (c : api_call) :
  creation_count (log ++ [c]) = creation_count log + (if is_store_creation c then 1 else 0).
Proof. induction log as [| d log IH]; simpl; [lia | rewrite IH; lia]. Qed.

Lemma store_fixed_log_call (v : string) (n : nat) (c : api_call) (w : world) :
  uses_store v c -> is_store_creation c = false ->
  store_fixed v n w -> store_fixed v n (log_call c w).
Proof.
  intros Hu Hc (H1 & H2 & H3). split; [exact H1 |]. simpl. split.
  - apply Forall_app. split; [exact H2 | constructor; [exact Hu | constructor]].
  - rewrite creation_count_snoc, Hc. lia.
Qed.

Lemma store_fixed_on_session (v : string) (n : nat) (f : session_state -> session_state)
      (w : world) :
  (forall s, vs_id (f s) = vs_id s) ->
  store_fixed v n w -> store_fixed v n (on_session f w).
Proof. intros Hf (H1 & H2 & H3). split; [simpl; rewrite Hf; exact H1 | split; assumption]. Qed.

Lemma store_fixed_set_count (v : string) (n k : nat) (w : world) :
  store_fixed v n w -> store_fixed v n (set_count k w).
Proof. intros H. exact H. Qed.

Section Store.

Variable client : Client.
Variables (v : string) (n : nat).

Lemma rag_call_store (messages : list message) (instructions : string) :
  keeps (store_fixed v n) (rag_call client messages instructions).
Proof.
  intros w Hw.
  destruct (model_choice (session w)) as [m|] eqn:Hm;
    [| unfold rag_call; run_monad; rewrite Hm; exact Hw].
  destruct Hw as (Hv & Hlog & Hn).
  rewrite (rag_call_run client w messages instructions m v Hm Hv). simpl.
  apply (store_fixed_log_call v n _ w); [reflexivity | reflexivity |].
  split; [exact Hv | split; assumption].
Qed.

Lemma ask_model_store (question instructions : string) (update_history : bool) :
  keeps (store_fixed v n) (ask_model client question instructions update_history).
Proof.
  intros w Hw.
  destruct (ready_or_not w) as [(h & m & v' & Hh & Hm & Hv) | Hnot].
  - rewrite (ask_model_run client w question instructions update_history h m v' Hh Hm Hv).
    cbn zeta.
    assert (Hw1 : store_fixed v n
                    (log_call (ResponsesCreate
                                 (make_request m v' instructions (h ++ [user_message question]))) w)).
    { destruct Hw as (Hv0 & Hlog & Hn). rewrite Hv in Hv0. inversion Hv0; subst v'.
      apply store_fixed_log_call; [reflexivity | reflexivity |].
      split; [exact Hv | split; assumption]. }
    destruct (fst (rag_call client _ _ w)) as [[answer files] | e]; [| exact Hw1].
    destruct update_history; [| exact Hw1].
    apply store_fixed_on_session; [reflexivity | exact Hw1].
  - rewrite (ask_model_not_ready client w question instructions update_history Hnot).
    exact Hw.
Qed.

Lemma index_file_store (f : uploaded_file) : keeps (store_fixed v n) (index_file client f).
Proof.
  intros w Hw. pose proof Hw as (Hv & _ & _).
  unfold index_file. run_monad.
  destruct (indexed_filenames (session w)) as [indexed|] eqn:Hi; [| exact Hw].
  destruct (decide (name f ∈ indexed)); [exact Hw |].
  assert (H1 : store_fixed v n (log_call (FilesCreate (name f) (data f) "assistants") w))
    by (apply store_fixed_log_call; [exact I | reflexivity | exact Hw]).
  destruct (files_create client _ _ _ _) as [fid | msg]; simpl; [| exact H1].
  rewrite Hv.
  assert (H2 : store_fixed v n
                 (log_call (VectorStoresFilesCreate v fid)
                    (log_call (FilesCreate (name f) (data f) "assistants") w)))
    by (apply store_fixed_log_call; [reflexivity | reflexivity | exact H1]).
  destruct (vector_stores_files_create client _ _ _) as [[] | msg]; simpl; [| exact H2].
  rewrite Hi. simpl.
  apply store_fixed_set_count.
  apply (store_fixed_on_session v n (set_indexed_filenames (Some ({[name f]} ∪ indexed))));
    [reflexivity | exact H2].
Qed.

Lemma init_session_store : keeps (store_fixed v n) (init_session client).
Proof.
  intros w (Hv & Hlog & Hn).
  destruct w as [[vs [indexed|] [h|] [m|]] k log]; simpl in Hv; subst vs;
    unfold init_session; run_monad; (split; [reflexivity | split; assumption]).
Qed.

Lemma upload_section_store (files : list uploaded_file) :
  keeps (store_fixed v n) (upload_section client files).
Proof.
  unfold upload_section.
  apply keeps_bind; [apply keeps_modify; intros w Hw; exact Hw | intros _].
  destruct files; [apply keeps_ret |].
  apply keeps_for_each. exact index_file_store.
Qed.

Lemma model_section_store (choice : model_option) :
  keeps (store_fixed v n) (model_section choice).
Proof.
  apply keeps_modify. intros w Hw. apply store_fixed_on_session; [reflexivity | exact Hw].
Qed.

Lemma chat_section_store (follow_up : option string) :
  keeps (store_fixed v n) (chat_section client follow_up).
Proof.
  intros w Hw. unfold chat_section, bind, read, raise.
  destruct (indexed_filenames (session w)) as [indexed|]; [| exact Hw].
  destruct (decide (indexed = ∅)); [exact Hw |].
  destruct follow_up as [q|]; [| exact Hw].
  destruct (truthy (VStr q)); [| exact Hw].
  pose proof (ask_model_store q chat_instructions true w Hw) as H1.
  destruct (ask_model client q chat_instructions true w) as [[r | e] w1]; exact H1.
Qed.

Lemma investor_section_store (clicked : bool) :
  keeps (store_fixed v n) (investor_section client clicked).
Proof.
  intros w Hw. unfold investor_section, bind, read, ret.
  destruct (indexed_filenames (session w)) as [indexed|]; [| exact Hw].
  destruct (decide (indexed = ∅)); [exact Hw |].
  destruct clicked; [| exact Hw].
  destruct (chat_history (session w)) as [h|]; [| exact Hw].
  pose proof (rag_call_store (copy_messages h ++ [user_message investor_prompt])
                investor_instructions w Hw) as H1.
  destruct (rag_call client _ _ w) as [[r | e] w1]; exact H1.
Qed.

(** Lines 97 to the end of the script. *)
Lemma sections_store (u : ui) :
  keeps (store_fixed v n)
    (upload_section client (uploaded_files u) ;;;
     model_section (selectbox u) ;;;
     chat_section client (chat_input u) ;;;
     investor_section client (button u)).
Proof.
  apply keeps_bind; [apply upload_section_store | intros _].
  apply keeps_bind; [apply model_section_store | intros _].
  apply keeps_bind; [apply chat_section_store | intros _].
  apply investor_section_store.
Qed.

Lemma script_store (u : ui) : keeps (store_fixed v n) (script client u).
Proof.
  unfold script. apply keeps_bind; [apply init_session_store | intros _].
  apply sections_store.
Qed.

End Store.

Section StoreInvariant.

Variable client : Client.

Lemma store_fixed_invariant (v : string) (n : nat) (w : world) :
  store_fixed v n w -> store_invariant w.
Proof. intros (Hv & Hlog & _). unfold store_invariant. rewrite Hv. exact Hlog. Qed.

Lemma creations_use_store (v : string) (log : list api_call) :
  Forall (fun c => is_store_creation c = true) log -> Forall (uses_store v) log.
Proof.
  intros H. apply (Forall_impl _ _ _ H).
  intros c Hc. destruct c; try discriminate. exact I.
Qed.

(** The first lines of the script on a session without identifier: either
    the creation fails and the script stops there, or the identifier is
    stored. *)
Lemma init_session_creates (w : world) :
  vs_id (session w) = None ->
  Forall (fun c => is_store_creation c = true) (api_log w) ->
  (exists msg, init_session client w
               = (Raise (APIError msg),
                  log_call (VectorStoresCreate "real_estate_due_diligence_store") w))
  \/ (fst (init_session client w) = Ok tt /\
      exists id, store_fixed id (creation_count (api_log w) + 1) (snd (init_session client w))).
Proof.
  intros Hv Hlog.
  destruct w as [[vs [indexed|] [h|] [m|]] k log]; simpl in Hv, Hlog; subst vs;
    unfold init_session; run_monad;
    (destruct (vector_stores_create client log _) as [id | msg]; simpl;
     [right; split; [reflexivity |]; exists id;
      split; [reflexivity |]; simpl; split;
      [apply Forall_app; split; [apply creations_use_store; exact Hlog
                                | constructor; [exact I | constructor]]
      | rewrite creation_count_snoc; reflexivity]
     | left; exists msg; reflexivity]).
Qed.

Lemma script_invariant (u : ui) : keeps store_invariant (script client u).
Proof.
  intros w Hw. unfold store_invariant in Hw.
  destruct (vs_id (session w)) as [v|] eqn:Hv.
  - apply (store_fixed_invariant v (creation_count (api_log w))).
    apply script_store. split; [exact Hv | split; [exact Hw | reflexivity]].
  - unfold script. unfold bind at 1.
    destruct (init_session_creates w Hv Hw) as [[msg Hfail] | [Hok [id Hid]]].
    + rewrite Hfail. simpl. unfold store_invariant. simpl. rewrite Hv.
      apply Forall_app. split; [exact Hw | constructor; [reflexivity | constructor]].
    + destruct (init_session client w) as [o w1]. simpl in Hok, Hid. subst o.
      apply (store_fixed_invariant id (creation_count (api_log w) + 1)).
      apply sections_store. exact Hid.
Qed.

Lemma run_session_keeps (P : world -> Prop) (us : list ui) :
  (forall u, keeps P (script client u)) ->
  forall w, P w -> P (run_session client us w).
Proof.
  intros Hstep. unfold run_session.
  induction us as [| u us IH]; intros w Hw; [exact Hw |].
  simpl. apply IH. apply Hstep. exact Hw.
Qed.

(** C9.  From the start of a session on, and whatever the user does: as
    long as the session has no identifier only store creations are
    requested of the service; once the identifier is stored it never
    changes, no further store is created, and every attachment and every
    query is made against that identifier. *)
Theorem vs_id_assigned_once (us1 us2 : list ui) :
  let w1 := run_session client us1 initial_world in
  let w2 := run_session client us2 w1 in
  store_invariant w2 /\
  forall v, vs_id (session w1) = Some v ->
            vs_id (session w2) = Some v /\
            Forall (uses_store v) (api_log w2) /\
            creation_count (api_log w2) = creation_count (api_log w1).
Proof.
  intros w1 w2.
  assert (H1 : store_invariant w1).
  { apply run_session_keeps; [exact script_invariant | constructor]. }
  split.
  - apply run_session_keeps; [exact script_invariant | exact H1].
  - intros v Hv.
    apply (run_session_keeps (store_fixed v (creation_count (api_log w1))) us2
             (script_store client v _)).
    unfold store_invariant in H1. rewrite Hv in H1.
    split; [exact Hv | split; [exact H1 | reflexivity]].
Qed.

End StoreInvariant.

Lemma vs_id_assigned_once_witness :
  let w1 := run_session (always roof_response) [upload_run] initial_world in
  let w2 := run_session (always roof_response) [chat_run; summary_run; chat_run] w1 in
  vs_id (session w1) = Some "vs_1" /\
  vs_id (session w2) = Some "vs_1" /\
  Forall (uses_store "vs_1") (api_log w2) /\
  creation_count (api_log w2) = 1 /\
  length (api_log w2) = 6.
Proof.
  intros w1 w2.
  assert (Hv : vs_id (session w1) = Some "vs_1") by (vm_compute; reflexivity).
  split; [exact Hv |].
  destruct (vs_id_assigned_once (always roof_response) [upload_run]
              [chat_run; summary_run; chat_run]) as [_ H].
  destruct (H "vs_1" Hv) as (H1 & H2 & H3).
  split; [exact H1 |]. split; [exact H2 |].
  split; [| vm_compute; reflexivity].
  transitivity (creation_count (api_log w1)); [exact H3 | vm_compute; reflexivity].
Defined.

(** Two chat turns and one summary in between: four entries. *)
Example transcript_after_two_turns :
  let w := run_session (always roof_response)
             [upload_run; chat_run; summary_run; chat_run] initial_world in
  transcript w
  = [user_message roof_question; assistant_message (VStr "Roof is in fair condition.");
     user_message roof_question; assistant_message (VStr "Roof is in fair condition.")] /\
  successful_turns (always roof_response)
    [upload_run; chat_run; summary_run; chat_run] initial_world = 2.
Proof. vm_compute. split; reflexivity. Qed.

(** The scenario of the specification: empty transcript, one citation. *)
Example roof_scenario :
  fst (ask_model (always roof_response) roof_question chat_instructions true ready)
  = Ok (VStr "Roof is in fair condition.", [VStr "inspection.pdf"]).
Proof. vm_compute. reflexivity. Qed.

(** A response without output: no citation, no error. *)
Example silent_scenario :
  fst (rag_call (always silent_response) [user_message roof_question] chat_instructions ready)
  = Ok (no_text_output, []).
Proof. vm_compute. reflexivity. Qed.

(** [sorted] is outside the [try] statement: a [file_name] that is [None]
    next to a string makes the call raise. *)
Example unnamed_scenario :
  fst (scan_output unnamed_response []) = Ok tt /\
  fst (rag_call (always unnamed_response) [user_message roof_question] chat_instructions ready)
  = Raise TypeError.
Proof. vm_compute. split; reflexivity. Qed.

(** * Further properties *)

(** ** What each part of the script does to the state *)

Section Effects.

Variable client : Client.

Lemma rag_call_effect (messages : list message) (instructions : string) (w : world) :
  snd (rag_call client messages instructions w) = w \/
  exists m v,
    model_choice (session w) = Some m /\ vs_id (session w) = Some v /\
    snd (rag_call client messages instructions w)
    = log_call (ResponsesCreate (make_request m v instructions messages)) w.
Proof.
  destruct (model_choice (session w)) as [m|] eqn:Hm;
    [| left; unfold rag_call; run_monad; rewrite Hm; reflexivity].
  destruct (vs_id (session w)) as [v|] eqn:Hv;
    [| left; unfold rag_call; run_monad; rewrite Hm, Hv; reflexivity].
  right. exists m, v. rewrite (rag_call_run client w messages instructions m v Hm Hv). auto.
Qed.

(** The four ways an iteration of the indexing loop can end. *)
Lemma index_file_effect (f : uploaded_file) (w : world) :
  let uploaded := log_call (FilesCreate (name f) (data f) "assistants") w in
  snd (index_file client f w) = w \/
  snd (index_file client f w) = uploaded \/
  (exists v fid,
      vs_id (session w) = Some v /\
      snd (index_file client f w) = log_call (VectorStoresFilesCreate v fid) uploaded) \/
  (exists indexed v fid,
      indexed_filenames (session w) = Some indexed /\ (name f ∉ indexed) /\
      vs_id (session w) = Some v /\
      snd (index_file client f w)
      = set_count (newly_indexed_count w + 1)
          (on_session (set_indexed_filenames (Some ({[name f]} ∪ indexed)))
             (log_call (VectorStoresFilesCreate v fid) uploaded))).
Proof.
  intros uploaded. subst uploaded. unfold index_file. run_monad.
  destruct (indexed_filenames (session w)) as [indexed|] eqn:Hi; [| auto].
  destruct (decide (name f ∈ indexed)); [auto |].
  destruct (files_create client _ _ _ _) as [fid | msg]; simpl; [| auto].
  destruct (vs_id (session w)) as [v|] eqn:Hv; [| auto].
  destruct (vector_stores_files_create client _ _ _) as [[] | msg]; simpl.
  - rewrite Hi. simpl. right. right. right. exists indexed, v, fid. auto.
  - right. right. left. exists v, fid. auto.
Qed.

(** The first lines of the script create what is absent; they stop early
    only when the creation of the store fails. *)
Lemma init_session_effect (w : world) :
  let created := log_call (VectorStoresCreate "real_estate_due_diligence_store") w in
  (exists v, vs_id (session w) = Some v /\ init_session client w = (Ok tt, fill_defaults w)) \/
  (vs_id (session w) = None /\
   exists msg, init_session client w = (Raise (APIError msg), created)) \/
  (vs_id (session w) = None /\
   exists id, init_session client w
              = (Ok tt, fill_defaults (on_session (set_vs_id (Some id)) created))).
Proof.
  intros created. subst created.
  destruct w as [[[v|] [indexed|] [h|] [m|]] k log];
    unfold init_session; run_monad;
    try (left; exists v; split; reflexivity);
    (destruct (vector_stores_create client log _) as [id | msg]; simpl;
     [right; right; split; [reflexivity | exists id; reflexivity]
     | right; left; split; [reflexivity | exists msg; reflexivity]]).
Qed.

(** The chat part either does nothing, or sends one query for a non-empty
    input with a document indexed; the turn is stored only if the query is
    answered, and then the script is rerun. *)
Lemma chat_section_effect (follow_up : option string) (w : world) :
  (snd (chat_section client follow_up w) = w /\
   fst (chat_section client follow_up w) <> Raise RerunException) \/
  exists q h m v indexed,
    follow_up = Some q /\ truthy (VStr q) = true /\
    indexed_filenames (session w) = Some indexed /\ indexed <> ∅ /\
    chat_history (session w) = Some h /\ model_choice (session w) = Some m /\
    vs_id (session w) = Some v /\
    (let sent := log_call (ResponsesCreate
                             (make_request m v chat_instructions (h ++ [user_message q]))) w in
     (snd (chat_section client follow_up w) = sent /\
      exists e, fst (chat_section client follow_up w) = Raise e /\ e <> RerunException) \/
     (exists a, truthy a = true /\
                fst (chat_section client follow_up w) = Raise RerunException /\
                snd (chat_section client follow_up w)
                = on_session (set_chat_history
                                (Some (h ++ [user_message q; assistant_message a]))) sent)).
Proof.
  unfold chat_section, bind, read, raise, ret.
  destruct (indexed_filenames (session w)) as [indexed|] eqn:Hi;
    [| left; split; [reflexivity | simpl; discriminate]].
  destruct (decide (indexed = ∅)) as [He | Hne];
    [left; split; [reflexivity | simpl; discriminate] |].
  destruct follow_up as [q|]; [| left; split; [reflexivity | simpl; discriminate]].
  destruct (truthy (VStr q)) eqn:Ht; [| left; split; [reflexivity | simpl; discriminate]].
  destruct (ready_or_not w) as [(h & m & v & Hh & Hm & Hv) | Hnot].
  - right. exists q, h, m, v, indexed. repeat (split; [first [reflexivity | assumption] |]).
    rewrite (ask_model_run client w q chat_instructions true h m v Hh Hm Hv). cbn zeta.
    rewrite (rag_call_run client w _ chat_instructions m v Hm Hv). cbn [fst].
    destruct (responses_create client _ _) as [resp | msg].
    + destruct (sorted_set _) as [files | e] eqn:Es.
      * right. exists (py_or (output_text resp) no_text_output).
        split; [| split; reflexivity].
        unfold py_or. destruct (truthy (output_text resp)) eqn:E; [exact E | reflexivity].
      * left. split; [reflexivity |]. simpl.
        apply sorted_set_raise in Es as [-> _]. exists TypeError. split; [reflexivity | discriminate].
    + left. split; [reflexivity |]. simpl.
      exists (APIError msg). split; [reflexivity | discriminate].
  - rewrite (ask_model_not_ready client w q chat_instructions true Hnot).
    left. split; [reflexivity | simpl; discriminate].
Qed.

(** The summary part sends at most one query, with a document indexed,
    and changes nothing else. *)
Lemma investor_section_effect (clicked : bool) (w : world) :
  snd (investor_section client clicked w) = w \/
  exists h m v indexed,
    clicked = true /\
    indexed_filenames (session w) = Some indexed /\ indexed <> ∅ /\
    chat_history (session w) = Some h /\ model_choice (session w) = Some m /\
    vs_id (session w) = Some v /\
    snd (investor_section client clicked w)
    = log_call (ResponsesCreate
                  (make_request m v investor_instructions
                     (h ++ [user_message investor_prompt]))) w.
Proof.
  unfold investor_section, bind, read, ret.
  destruct (indexed_filenames (session w)) as [indexed|] eqn:Hi; [| left; reflexivity].
  destruct (decide (indexed = ∅)) as [He | Hne]; [left; reflexivity |].
  destruct clicked; [| left; reflexivity].
  destruct (chat_history (session w)) as [h|] eqn:Hh; [| left; reflexivity].
  rewrite copy_messages_id.
  destruct (rag_call_effect (h ++ [user_message investor_prompt]) investor_instructions w)
    as [Hsame | (m & v & Hm & Hv & Hsent)].
  - left. destruct (rag_call client _ _ w) as [[r | e] w1]; exact Hsame.
  - right. exists h, m, v, indexed. repeat (split; [first [reflexivity | assumption] |]).
    destruct (rag_call client _ _ w) as [[r | e] w1]; exact Hsent.
Qed.

End Effects.

(** ** The guarded traversal and the call of the endpoint *)

(** X1.  The traversal of lines 60-65 raises nothing but [AttributeError]
    and [TypeError], so the handler of line 66 catches whatever it raises:
    control always leaves the [try] statement normally, with [used_files]
    as the traversal left it. *)
Theorem try_statement_always_completes (resp : response) :
  (forall e, fst (scan_output resp []) = Raise e -> e = AttributeError \/ e = TypeError) /\
  used_files_of resp = Ok (snd (scan_output resp [])).
Proof.
  split.
  - intros e He. exact (scan_output_raises resp [] e He).
  - apply used_files_of_scan.
Qed.

Lemma py_set_perm (l1 l2 : list value) :
  (forall x, x ∈ l1 <-> x ∈ l2) -> py_set l1 = py_set l2.
Proof.
  intros Hel. unfold py_set.
  destruct (mapM hash_key l1) as [k1|] eqn:E1; destruct (mapM hash_key l2) as [k2|] eqn:E2.
  - f_equal. apply set_eq. intros k. rewrite !elem_of_list_to_set.
    rewrite <- (list_elem_of_fmap_inj of_key k1 k), <- (list_elem_of_fmap_inj of_key k2 k).
    rewrite <- (mapM_hash_key _ _ E1), <- (mapM_hash_key _ _ E2). apply Hel.
  - exfalso. apply mapM_None_1 in E2. apply Exists_exists in E2 as (x & Hx & Hnone).
    apply Hel in Hx. rewrite (mapM_hash_key _ _ E1) in Hx.
    apply list_elem_of_fmap in Hx as (k & -> & _). rewrite hash_key_of_key in Hnone. discriminate.
  - exfalso. apply mapM_None_1 in E1. apply Exists_exists in E1 as (x & Hx & Hnone).
    apply Hel in Hx. rewrite (mapM_hash_key _ _ E2) in Hx.
    apply list_elem_of_fmap in Hx as (k & -> & _). rewrite hash_key_of_key in Hnone. discriminate.
  - reflexivity.
Qed.

(** X2.  [sorted(set(...))] depends only on which values were collected,
    not on their order in the response nor on how often each occurs: it
    returns the same list, or raises alike. *)
Theorem citations_ignore_order_and_repetition (l1 l2 : list value) :
  (forall x, x ∈ l1 <-> x ∈ l2) -> sorted_set l1 = sorted_set l2.
Proof. intros H. unfold sorted_set. rewrite (py_set_perm l1 l2 H). reflexivity. Qed.

Lemma sorted_set_nil : sorted_set [] = Ok [].
Proof. unfold sorted_set, py_set, py_sorted. simpl. rewrite elements_empty. reflexivity. Qed.

Section Endpoint.

Variable client : Client.

(** X3.  A response in which no content item is a file-search tool result
    gives an empty citation list, and no error, whatever else it holds
    and even if the traversal is cut short by an error. *)
Theorem no_file_search_results_no_citations
    (w : world) (messages : list message) (instructions m v : string) (resp : response) :
  model_choice (session w) = Some m ->
  vs_id (session w) = Some v ->
  responses_create client (api_log w) (make_request m v instructions messages) = Reply resp ->
  (forall block c, block_of_response resp block -> content_of_block block c ->
                   ~ is_file_search_result c) ->
  fst (rag_call client messages instructions w)
  = Ok (py_or (output_text resp) no_text_output, []).
Proof.
  intros Hm Hv Hresp Hnone.
  rewrite (rag_call_run client w messages instructions m v Hm Hv), Hresp. cbn [fst].
  pose proof (scan_output_cited resp) as Hc.
  destruct (snd (scan_output resp [])) as [| x used].
  - rewrite sorted_set_nil. reflexivity.
  - exfalso. apply Forall_cons in Hc as [(block & c & r & Hb & Hcb & [Hfs _] & _) _].
    exact (Hnone block c Hb Hcb Hfs).
Qed.

(** X4.  How [rag_call] can fail: with [AttributeError] before any
    request when the session lacks the model or the store; otherwise
    after exactly one request, with the API error of the endpoint, or
    with [TypeError] when a collected file name is not a string.  There
    is no retry, and the session is not touched. *)
Theorem rag_call_failure_modes
    (w w' : world) (messages : list message) (instructions : string) (e : exn) :
  rag_call client messages instructions w = (Raise e, w') ->
  session w' = session w /\
  ((e = AttributeError /\ w' = w /\
    (model_choice (session w) = None \/ vs_id (session w) = None)) \/
   exists m v,
     model_choice (session w) = Some m /\ vs_id (session w) = Some v /\
     api_log w' = api_log w ++ [ResponsesCreate (make_request m v instructions messages)] /\
     ((exists msg, responses_create client (api_log w)
                     (make_request m v instructions messages) = Failure msg /\
                   e = APIError msg) \/
      (exists resp, responses_create client (api_log w)
                      (make_request m v instructions messages) = Reply resp /\
                    e = TypeError /\ ~ Forall is_str (snd (scan_output resp []))))).
Proof.
  intros H.
  destruct (model_choice (session w)) as [m|] eqn:Hm.
  2: { unfold rag_call in H. run_monad. rewrite Hm in H. inversion H; subst. auto 10. }
  destruct (vs_id (session w)) as [v|] eqn:Hv.
  2: { unfold rag_call in H. run_monad. rewrite Hm, Hv in H. inversion H; subst. auto 10. }
  rewrite (rag_call_run client w messages instructions m v Hm Hv) in H.
  split; [inversion H; reflexivity |].
  right. exists m, v. split; [reflexivity |]. split; [reflexivity |].
  split; [inversion H; reflexivity |].
  destruct (responses_create client _ _) as [resp | msg].
  - right. exists resp. split; [reflexivity |].
    destruct (sorted_set _) as [files | e1] eqn:Es; [discriminate |].
    inversion H; subst. exact (sorted_set_raise _ _ Es).
  - left. exists msg. split; [reflexivity |]. inversion H; reflexivity.
Qed.

(** X5.  A chat turn is stored whole or not at all: when [ask_model]
    raises, whatever the value of [update_history], the session and its
    transcript are what they were, and at most one request was sent. *)
Theorem failed_turn_stores_nothing
    (w w' : world) (question instructions : string) (update_history : bool) (e : exn) :
  ask_model client question instructions update_history w = (Raise e, w') ->
  session w' = session w /\
  transcript w' = transcript w /\
  (api_log w' = api_log w \/ exists req, api_log w' = api_log w ++ [ResponsesCreate req]).
Proof.
  intros H.
  assert (Hgoal : session w' = session w /\
                  (api_log w' = api_log w \/
                   exists req, api_log w' = api_log w ++ [ResponsesCreate req])).
  { destruct (ready_or_not w) as [(h & m & v & Hh & Hm & Hv) | Hnot].
    - rewrite (ask_model_run client w question instructions update_history h m v Hh Hm Hv)
        in H. cbn zeta in H.
      destruct (fst (rag_call client _ _ w)) as [[answer files] | e1]; [discriminate |].
      inversion H; subst. split; [reflexivity |]. right. eexists. reflexivity.
    - rewrite (ask_model_not_ready client w question instructions update_history Hnot) in H.
      inversion H; subst. auto. }
  destruct Hgoal as [Hs Hl]. split; [exact Hs |]. split; [| exact Hl].
  apply same_session_transcript. exact Hs.
Qed.

(** X6.  The fallback text of line 229 is never shown: the text that
    [rag_call] returns is never empty, so the memo is that text (the
    placeholder of line 56 when the endpoint gave none). *)
Theorem investor_fallback_never_shown
    (w w' : world) (messages : list message) (instructions : string)
    (investor_text : value) (investor_files : list value) :
  rag_call client messages instructions w = (Ok (investor_text, investor_files), w') ->
  memo_text investor_text = investor_text.
Proof.
  intros H. apply rag_call_inv in H as (m & v & resp & _ & _ & _ & -> & _ & _).
  unfold memo_text, py_or.
  destruct (truthy (output_text resp)) eqn:E; [rewrite E; reflexivity | reflexivity].
Qed.

End Endpoint.

(** ** The uploader across reruns *)

Section Uploader.

Variable client : Client.

(** X7.  A rerun with files whose names are all indexed uploads nothing:
    the indexing part makes no call and changes nothing but the counter,
    which it resets to 0. *)
Theorem rerun_uploads_nothing
    (files : list uploaded_file) (w : world) (indexed : gset string) :
  indexed_filenames (session w) = Some indexed ->
  (forall f, f ∈ files -> name f ∈ indexed) ->
  upload_section client files w = (Ok tt, set_count 0 w).
Proof.
  intros Hi Hall. rewrite upload_section_run.
  assert (Hi0 : indexed_filenames (session (set_count 0 w)) = Some indexed) by exact Hi.
  revert Hi0. generalize (set_count 0 w). clear Hi. intros w0 Hi0.
  induction files as [| f files IH]; [reflexivity |].
  simpl. unfold bind.
  rewrite (index_file_known client f w0 indexed Hi0 (Hall f ltac:(left))).
  apply IH. intros g Hg. apply Hall. right. exact Hg.
Qed.

(** X8.  When the indexing loop completes on a non-empty upload, the page
    says that all documents are already indexed exactly when every
    uploaded name was indexed before; otherwise it announces the number
    of distinct new names. *)
Theorem upload_notice_tells_what_happened
    (files : list uploaded_file) (w w' : world) (indexed : gset string) :
  indexed_filenames (session w) = Some indexed ->
  upload_section client files w = (Ok tt, w') ->
  files <> [] ->
  let fresh : gset string := list_to_set (name <$> files) ∖ indexed in
  ((forall f, f ∈ files -> name f ∈ indexed) ->
   upload_notice files (newly_indexed_count w')
   = Some (Info "All uploaded documents are already indexed in this session.")) /\
  (~ (forall f, f ∈ files -> name f ∈ indexed) ->
   upload_notice files (newly_indexed_count w')
   = Some (Success ("Indexed " +:+ pretty (size fresh)
                    +:+ " new document(s). You can now chat with them below. 👇"))).
Proof.
  intros Hi Hrun Hne fresh. rewrite upload_section_run in Hrun.
  destruct (upload_loop_ok client files (set_count 0 w) w' indexed Hi Hrun) as [_ Hc].
  simpl in Hc. fold fresh in Hc. rewrite Hc.
  assert (Hiff : size fresh = 0 <-> forall f, f ∈ files -> name f ∈ indexed).
  { rewrite size_empty_iff. unfold fresh. split.
    - intros He f Hf. destruct (decide (name f ∈ indexed)) as [Hin | Hout]; [exact Hin |].
      exfalso. apply (not_elem_of_empty (C := gset string) (name f)).
      apply He. apply elem_of_difference. split; [| exact Hout].
      apply elem_of_list_to_set, list_elem_of_fmap. exists f. auto.
    - intros Hall. apply elem_of_equiv_empty. intros n Hn.
      apply elem_of_difference in Hn as [Hn Hout].
      apply elem_of_list_to_set, list_elem_of_fmap in Hn as (f & -> & Hf).
      exact (Hout (Hall f Hf)). }
  unfold upload_notice. destruct files as [| f0 files0]; [contradiction |].
  split.
  - intros Hall. apply Hiff in Hall. rewrite Hall. reflexivity.
  - intros Hnot. destruct (size fresh) as [| k] eqn:Ek; [| reflexivity].
    exfalso. apply Hnot. apply Hiff. reflexivity.
Qed.

Lemma index_file_grows (f : uploaded_file) (known : gset string) :
  keeps (fun w => exists indexed, indexed_filenames (session w) = Some indexed /\
                                  known ⊆ indexed)
    (index_file client f).
Proof.
  intros w (indexed & Hi & Hsub).
  destruct (index_file_effect client f w)
    as [-> | [-> | [(v & fid & _ & ->) | (idx & v & fid & Hidx & _ & _ & ->)]]];
    try (exists indexed; split; [exact Hi | exact Hsub]).
  exists ({[name f]} ∪ idx). split; [reflexivity |].
  rewrite Hi in Hidx. inversion Hidx; subst idx. set_solver.
Qed.

Lemma script_grows (u : ui) (known : gset string) :
  keeps (fun w => exists indexed, indexed_filenames (session w) = Some indexed /\
                                  known ⊆ indexed)
    (script client u).
Proof.
  unfold script.
  apply keeps_bind.
  { intros w (indexed & Hi & Hsub).
    destruct (init_session_effect client w)
      as [(v & _ & ->) | [(_ & msg & ->) | (_ & id & ->)]]; simpl;
      rewrite ?Hi; exists indexed; auto. }
  intros _. apply keeps_bind.
  { unfold upload_section.
    apply keeps_bind; [apply keeps_modify; intros w Hw; exact Hw | intros _].
    destruct (uploaded_files u); [apply keeps_ret |].
    apply keeps_for_each. intros f. apply index_file_grows. }
  intros _. apply keeps_bind.
  { apply keeps_modify. intros w Hw. exact Hw. }
  intros _. apply keeps_bind.
  { intros w (indexed & Hi & Hsub).
    destruct (chat_section_effect client (chat_input u) w)
      as [[-> _] | (q & h & m & v & idx & _ & _ & _ & _ & _ & _ & _ & [[-> _] | (a & _ & _ & ->)])];
      exists indexed; auto. }
  intros _ w (indexed & Hi & Hsub).
  destruct (investor_section_effect client (button u) w)
    as [-> | (h & m & v & idx & _ & _ & _ & _ & _ & _ & ->)]; exists indexed; auto.
Qed.

(** X9.  Indexed names are never forgotten: along any sequence of runs of
    the script, whatever their outcomes, the set of indexed names only
    grows. *)
Theorem indexed_filenames_only_grow (us : list ui) (w : world) (indexed : gset string) :
  indexed_filenames (session w) = Some indexed ->
  exists indexed',
    indexed_filenames (session (run_session client us w)) = Some indexed' /\
    indexed ⊆ indexed'.
Proof.
  intros Hi.
  apply (run_session_keeps client
           (fun w => exists indexed', indexed_filenames (session w) = Some indexed' /\
                                      indexed ⊆ indexed') us).
  - intros u. apply script_grows.
  - exists indexed. split; [exact Hi | reflexivity].
Qed.

End Uploader.

(** ** The transcript of a session *)

Lemma tidy_entries (turns : list (string * value)) :
  Forall well_formed_turn turns ->
  forall i msg, flat_map turn_entries turns !! i = Some msg ->
    role msg = (if Nat.even i then "user" else "assistant") /\ truthy (content msg) = true.
Proof.
  induction 1 as [| [q a] turns [Hq Ha] _ IH]; intros i msg Hi; [inversion Hi |].
  destruct i as [| [| i]]; simpl in Hi.
  - inversion Hi; subst msg. split; [reflexivity | exact Hq].
  - inversion Hi; subst msg. split; [reflexivity | exact Ha].
  - exact (IH i msg Hi).
Qed.

Lemma render_tidy (turns : list (string * value)) :
  render_history (flat_map turn_entries turns)
  = map (fun msg => (role msg, content msg)) (flat_map turn_entries turns).
Proof.
  induction turns as [| [q a] turns IH]; [reflexivity |].
  change (flat_map turn_entries ((q, a) :: turns))
    with ([user_message q; assistant_message a] ++ flat_map turn_entries turns).
  unfold render_history in *. rewrite flat_map_app, map_app, IH. reflexivity.
Qed.

Section Session.

Variable client : Client.

Lemma quiet_keeps_tidy {A} (m : M world A) : quiet m -> keeps tidy_transcript m.
Proof.
  intros Hq w Hw. unfold tidy_transcript in *. rewrite (proj2 (Hq w)). exact Hw.
Qed.

Lemma chat_section_tidy (follow_up : option string) :
  keeps tidy_transcript (chat_section client follow_up).
Proof.
  intros w (turns & Ht & Hwf).
  destruct (chat_section_effect client follow_up w)
    as [[-> _] | (q & h & m & v & idx & _ & Hq & _ & _ & Hh & _ & _ &
                  [[-> _] | (a & Ha & _ & ->)])].
  - exists turns. auto.
  - exists turns. auto.
  - exists (turns ++ [(q, a)]). split.
    + rewrite flat_map_app. simpl. rewrite <- Ht.
      unfold transcript. simpl. rewrite Hh. reflexivity.
    + apply Forall_app. split; [exact Hwf |]. constructor; [split; assumption | constructor].
Qed.

Lemma script_tidy (u : ui) : keeps tidy_transcript (script client u).
Proof.
  unfold script.
  apply keeps_bind; [apply quiet_keeps_tidy, quiet_init_session | intros _].
  apply keeps_bind; [apply quiet_keeps_tidy, quiet_upload_section | intros _].
  apply keeps_bind; [apply quiet_keeps_tidy, quiet_model_section | intros _].
  apply keeps_bind; [apply chat_section_tidy | intros _].
  apply quiet_keeps_tidy, quiet_investor_section.
Qed.

Lemma session_tidy (us : list ui) : tidy_transcript (run_session client us initial_world).
Proof.
  apply run_session_keeps; [exact script_tidy |].
  exists []. split; [reflexivity | constructor].
Qed.

(** X10.  In a session the transcript alternates strictly: the entry at
    an even position is the user's, the entry at an odd position the
    assistant's, and no stored text is empty or [None]. *)
Theorem transcript_alternates (us : list ui) (i : nat) (msg : message) :
  transcript (run_session client us initial_world) !! i = Some msg ->
  role msg = (if Nat.even i then "user" else "assistant") /\
  truthy (content msg) = true.
Proof.
  destruct (session_tidy us) as (turns & Ht & Hwf). rewrite Ht.
  apply tidy_entries. exact Hwf.
Qed.

(** X11.  The loop that draws the chat (lines 156-162) skips entries whose
    role is neither "user" nor "assistant"; in a session there is none, so
    every stored entry is drawn, in order, under its own role. *)
Theorem history_fully_rendered (us : list ui) :
  render_history (transcript (run_session client us initial_world))
  = map (fun msg => (role msg, content msg))
      (transcript (run_session client us initial_world)).
Proof.
  destruct (session_tidy us) as (turns & Ht & _). rewrite Ht. apply render_tidy.
Qed.

End Session.

(** ** Invariants of a session

    A property of the state holds throughout a session as soon as each
    elementary change the script can make keeps it. *)

Section Stable.

Variable client : Client.
Variable P : world -> Prop.

Hypothesis P_defaults : forall w, P w -> P (fill_defaults w).
Hypothesis P_count : forall k w, P w -> P (set_count k w).
Hypothesis P_create :
  forall w, vs_id (session w) = None ->
    P w -> P (log_call (VectorStoresCreate "real_estate_due_diligence_store") w).
Hypothesis P_store :
  forall id w, vs_id (session w) = None -> P w -> P (on_session (set_vs_id (Some id)) w).
Hypothesis P_upload :
  forall f w, P w -> P (log_call (FilesCreate (name f) (data f) "assistants") w).
Hypothesis P_attach :
  forall v fid w, vs_id (session w) = Some v ->
    P w -> P (log_call (VectorStoresFilesCreate v fid) w).
Hypothesis P_index :
  forall f v fid indexed w,
    indexed_filenames (session w) = Some indexed -> name f ∉ indexed ->
    vs_id (session w) = Some v ->
    P w ->
    P (on_session (set_indexed_filenames (Some ({[name f]} ∪ indexed)))
         (log_call (VectorStoresFilesCreate v fid)
            (log_call (FilesCreate (name f) (data f) "assistants") w))).
Hypothesis P_model :
  forall choice w, P w -> P (on_session (set_model_choice (Some (model_name choice))) w).
Hypothesis P_query :
  forall m v instructions messages indexed w,
    model_choice (session w) = Some m -> vs_id (session w) = Some v ->
    indexed_filenames (session w) = Some indexed -> indexed <> ∅ ->
    P w -> P (log_call (ResponsesCreate (make_request m v instructions messages)) w).
Hypothesis P_turn :
  forall h q a w,
    chat_history (session w) = Some h -> truthy (VStr q) = true -> truthy a = true ->
    P w ->
    P (on_session (set_chat_history (Some (h ++ [user_message q; assistant_message a]))) w).

Lemma stable_init_session : keeps P (init_session client).
Proof using All.
  intros w Hw.
  destruct (init_session_effect client w)
    as [(v & _ & ->) | [(Hv & msg & ->) | (Hv & id & ->)]]; simpl.
  - apply P_defaults. exact Hw.
  - apply P_create; assumption.
  - apply P_defaults. apply P_store; [exact Hv |]. apply P_create; assumption.
Qed.

Lemma stable_index_file (f : uploaded_file) : keeps P (index_file client f).
Proof using All.
  intros w Hw.
  destruct (index_file_effect client f w)
    as [-> | [-> | [(v & fid & Hv & ->) | (idx & v & fid & Hidx & Hout & Hv & ->)]]].
  - exact Hw.
  - apply P_upload. exact Hw.
  - apply P_attach; [exact Hv |]. apply P_upload. exact Hw.
  - apply P_count. apply P_index; assumption.
Qed.

Lemma stable_chat_section (follow_up : option string) :
  keeps P (chat_section client follow_up).
Proof using All.
  intros w Hw.
  destruct (chat_section_effect client follow_up w)
    as [[-> _] | (q & h & m & v & idx & _ & Hq & Hi & Hne & Hh & Hm & Hv &
                  [[-> _] | (a & Ha & _ & ->)])].
  - exact Hw.
  - apply (P_query m v _ _ idx); assumption.
  - apply P_turn; [exact Hh | exact Hq | exact Ha |].
    apply (P_query m v _ _ idx); assumption.
Qed.

Lemma stable_investor_section (clicked : bool) : keeps P (investor_section client clicked).
Proof using All.
  intros w Hw.
  destruct (investor_section_effect client clicked w)
    as [-> | (h & m & v & idx & _ & Hi & Hne & _ & Hm & Hv & ->)].
  - exact Hw.
  - apply (P_query m v _ _ idx); assumption.
Qed.

Lemma stable_script (u : ui) : keeps P (script client u).
Proof using All.
  unfold script.
  apply keeps_bind; [apply stable_init_session | intros _].
  apply keeps_bind.
  { unfold upload_section.
    apply keeps_bind; [apply keeps_modify; intros w; apply P_count | intros _].
    destruct (uploaded_files u); [apply keeps_ret |].
    apply keeps_for_each. exact stable_index_file. }
  intros _. apply keeps_bind; [apply keeps_modify; intros w; apply P_model | intros _].
  apply keeps_bind; [apply stable_chat_section | intros _].
  apply stable_investor_section.
Qed.

Lemma stable_session (us : list ui) (w : world) : P w -> P (run_session client us w).
Proof using All. apply run_session_keeps. exact stable_script. Qed.

(** The property also holds where a further run reaches the selector. *)
Lemma stable_at_selector (us : list ui) (u : ui) (w : world) :
  P w ->
  P (run_session client us w) /\
  P (snd ((init_session client ;;; upload_section client (uploaded_files u))
            (run_session client us w))).
Proof using All.
  intros Hw. pose proof (stable_session us w Hw) as Hs. split; [exact Hs |].
  revert Hs. generalize (run_session client us w).
  apply keeps_bind; [apply stable_init_session | intros _].
  unfold upload_section.
  apply keeps_bind; [apply keeps_modify; intros w1; apply P_count | intros _].
  destruct (uploaded_files u); [apply keeps_ret |].
  apply keeps_for_each. exact stable_index_file.
Qed.

End Stable.

Lemma count_calls_snoc (p : api_call -> bool) (log : list api_call) (c : api_call) :
  count_calls p (log ++ [c]) = count_calls p log + (if p c then 1 else 0).
Proof. induction log as [| d log IH]; simpl; [lia | rewrite IH; lia]. Qed.

Lemma count_calls_app (p : api_call -> bool) (l1 l2 : list api_call) :
  count_calls p (l1 ++ l2) = count_calls p l1 + count_calls p l2.
Proof. induction l1 as [| d l1 IH]; simpl; [reflexivity | rewrite IH; lia]. Qed.

Section Invariants.

Variable client : Client.

(** A logged call keeps what is known of the uploads. *)
Lemma uploads_logged_call (c : api_call) (w : world) :
  uploads_logged w -> uploads_logged (log_call c w).
Proof.
  intros Hw indexed Hi. destruct (Hw indexed Hi) as [Hn Hs]. simpl. split.
  - intros n Hin. destruct (Hn n Hin) as [bytes Hb]. exists bytes.
    apply elem_of_app. left. exact Hb.
  - rewrite count_calls_snoc. lia.
Qed.

Lemma session_uploads_logged (us : list ui) :
  uploads_logged (run_session client us initial_world).
Proof.
  apply stable_session.
  - intros [[v [indexed|] h m] k log] Hw idx Hi; simpl in *.
    + exact (Hw idx Hi).
    + inversion Hi; subst idx. split; [set_solver | rewrite size_empty; lia].
  - intros k w Hw. exact Hw.
  - intros w _. apply uploads_logged_call.
  - intros id w _ Hw. exact Hw.
  - intros f w. apply uploads_logged_call.
  - intros v fid w _. apply uploads_logged_call.
  - intros f v fid indexed w Hi Hout _ Hw idx Hidx. simpl in Hidx. inversion Hidx; subst idx.
    destruct (Hw indexed Hi) as [Hn Hs]. simpl. split.
    + intros n Hin. apply elem_of_union in Hin as [Hin | Hin].
      * apply elem_of_singleton in Hin. subst n. exists (data f).
        apply elem_of_app. left. apply elem_of_app. right. left.
      * destruct (Hn n Hin) as [bytes Hb]. exists bytes.
        apply elem_of_app. left. apply elem_of_app. left. exact Hb.
    + rewrite (size_union (C := gset string) {[name f]}); [| set_solver].
      rewrite size_singleton, !count_calls_snoc. simpl. lia.
  - intros choice w Hw. exact Hw.
  - intros m v instructions messages indexed w _ _ _ _. apply uploads_logged_call.
  - intros h q a w _ _ _ Hw. exact Hw.
  - intros idx Hi. inversion Hi.
Qed.

(** X12.  In a session a name is marked as indexed only after its upload:
    for every indexed name the service has received an upload of a file
    of that name with purpose "assistants", and it has received at least
    as many attachments as there are indexed names. *)
Theorem indexed_names_were_uploaded (us : list ui) (indexed : gset string) :
  indexed_filenames (session (run_session client us initial_world)) = Some indexed ->
  (forall n, n ∈ indexed ->
     exists bytes,
       FilesCreate n bytes "assistants" ∈ api_log (run_session client us initial_world)) /\
  size indexed <= count_calls is_attachment (api_log (run_session client us initial_world)).
Proof. apply session_uploads_logged. Qed.

Lemma session_queries_gated (us : list ui) :
  queries_gated (run_session client us initial_world).
Proof.
  assert (Hother : forall c w, is_query c = false ->
                     queries_gated w -> queries_gated (log_call c w)).
  { intros c w Hc Hw [req Hreq]. simpl in Hreq.
    apply elem_of_app in Hreq as [Hreq | Hreq]; [apply Hw; eauto |].
    apply list_elem_of_singleton in Hreq. subst c. discriminate. }
  apply stable_session.
  - intros [[v [indexed|] h m] k log] Hw Hq; simpl in *.
    + destruct (Hw Hq) as (idx & Hi & Hne). inversion Hi; subst. eauto.
    + destruct (Hw Hq) as (idx & Hi & _). discriminate.
  - intros k w Hw. exact Hw.
  - intros w _. apply Hother. reflexivity.
  - intros id w _ Hw. exact Hw.
  - intros f w. apply Hother. reflexivity.
  - intros v fid w _. apply Hother. reflexivity.
  - intros f v fid indexed w Hi Hout _ Hw _. simpl.
    exists ({[name f]} ∪ indexed). split; [reflexivity |].
    intros He. assert (Hin : name f ∈ (∅ : gset string)) by (rewrite <- He; set_solver).
    set_solver.
  - intros choice w Hw. exact Hw.
  - intros m v instructions messages indexed w _ _ Hi Hne _ _. simpl. eauto.
  - intros h q a w _ _ _ Hw. exact Hw.
  - intros [req Hreq]. inversion Hreq.
Qed.

(** X13.  The model is never queried about nothing: in a session, if any
    query has been sent to the generation endpoint, some document is
    indexed. *)
Theorem no_query_before_indexing (us : list ui) (req : request) :
  ResponsesCreate req ∈ api_log (run_session client us initial_world) ->
  exists indexed,
    indexed_filenames (session (run_session client us initial_world)) = Some indexed /\
    indexed <> ∅.
Proof. intros H. apply session_queries_gated. eauto. Qed.

Lemma model_name_listed (choice : model_option) : model_name choice ∈ model_options.
Proof. destruct choice; [left | right; left]. Qed.

Lemma session_models_listed (us : list ui) (u : ui) :
  models_listed (run_session client us initial_world) /\
  models_listed (snd ((init_session client ;;; upload_section client (uploaded_files u))
                        (run_session client us initial_world))).
Proof.
  assert (Hother : forall c w, is_query c = false ->
                     models_listed w -> models_listed (log_call c w)).
  { intros c w Hc [Hm Hq]. split; [exact Hm |]. intros req Hreq. simpl in Hreq.
    apply elem_of_app in Hreq as [Hreq | Hreq]; [exact (Hq req Hreq) |].
    apply list_elem_of_singleton in Hreq. subst c. discriminate. }
  apply stable_at_selector.
  - intros [[v indexed h [m|]] k log] [Hm Hq]; (split; [| exact Hq]); simpl in *.
    + exact Hm.
    + intros m Heq. inversion Heq. left.
  - intros k w Hw. exact Hw.
  - intros w _. apply Hother. reflexivity.
  - intros id w _ Hw. exact Hw.
  - intros f w. apply Hother. reflexivity.
  - intros v fid w _. apply Hother. reflexivity.
  - intros f v fid indexed w _ _ _ Hw.
    exact (Hother (VectorStoresFilesCreate v fid) _ eq_refl
             (Hother (FilesCreate (name f) (data f) "assistants") w eq_refl Hw)).
  - intros choice w [_ Hq]. split; [| exact Hq].
    simpl. intros m Heq. inversion Heq. apply model_name_listed.
  - intros m v instructions messages indexed w Hm _ _ _ [Hl Hq]. split; [exact Hl |].
    intros req Hreq. simpl in Hreq.
    apply elem_of_app in Hreq as [Hreq | Hreq]; [exact (Hq req Hreq) |].
    apply list_elem_of_singleton in Hreq. inversion Hreq. simpl. exact (Hl m Hm).
  - intros h q a w _ _ _ Hw. exact Hw.
  - split; [intros m Hm; inversion Hm | intros req Hreq; inversion Hreq].
Qed.

(** Where a run reaches the selector the session holds a model. *)
Lemma model_stored_at_selector (u : ui) (w w1 : world) :
  (init_session client ;;; upload_section client (uploaded_files u)) w = (Ok tt, w1) ->
  exists m, model_choice (session w1) = Some m.
Proof.
  unfold bind. intros H.
  assert (Hup : forall w0, keeps (fun x => model_choice (session x) = model_choice (session w0))
                             (upload_section client (uploaded_files u))).
  { intros w0. unfold upload_section.
    apply keeps_bind; [apply keeps_modify; intros x Hx; exact Hx | intros _].
    destruct (uploaded_files u); [apply keeps_ret |].
    apply keeps_for_each. intros f x Hx.
    destruct (index_file_effect client f x)
      as [-> | [-> | [(v & fid & _ & ->) | (idx & v & fid & _ & _ & _ & ->)]]]; exact Hx. }
  destruct (init_session_effect client w)
    as [(v & _ & E) | [(_ & msg & E) | (_ & id & E)]]; rewrite E in H; [| discriminate |].
  - specialize (Hup (fill_defaults w) (fill_defaults w) eq_refl).
    destruct (upload_section client (uploaded_files u) (fill_defaults w)) as [[[] | e] w2];
      [| discriminate].
    injection H as <-. simpl in Hup. rewrite Hup. eauto.
  - match type of H with
    | context [upload_section client _ ?x] =>
        specialize (Hup x x eq_refl);
        destruct (upload_section client (uploaded_files u) x) as [[[] | e] w2];
        [| discriminate]
    end.
    injection H as <-. simpl in Hup. rewrite Hup. eauto.
Qed.

(** X14.  Where a run of a session reaches the selector (line 140), the
    session holds a model, that model is one of the two entries, and the
    index computed at line 143 is its position; and every query of a
    session names one of the two entries. *)
Theorem selector_shows_stored_model (us : list ui) (u : ui) :
  (forall w1,
      (init_session client ;;; upload_section client (uploaded_files u))
        (run_session client us initial_world) = (Ok tt, w1) ->
      exists m, model_choice (session w1) = Some m /\
                model_options !! selectbox_index m = Some m) /\
  (forall req, ResponsesCreate req ∈ api_log (run_session client us initial_world) ->
               req_model req = "gpt-5-mini" \/ req_model req = "gpt-5-pro").
Proof.
  destruct (session_models_listed us u) as [[_ Hq] [Hm _]]. split.
  - intros w1 Hrun. destruct (model_stored_at_selector u _ w1 Hrun) as [m Hc].
    exists m. split; [exact Hc |].
    rewrite Hrun in Hm. specialize (Hm m Hc). unfold model_options in Hm.
    apply elem_of_cons in Hm as [-> | Hm]; [reflexivity |].
    apply list_elem_of_singleton in Hm. subst m. reflexivity.
  - intros req Hreq. specialize (Hq req Hreq). unfold model_options in Hq.
    apply elem_of_cons in Hq as [Hq | Hq]; [left; exact Hq |].
    apply list_elem_of_singleton in Hq. right. exact Hq.
Qed.

End Invariants.

(** ** The queries of one run *)

Lemma sends_refl (k : nat) (model : string) (w : world) : sends k model w w.
Proof.
  exists []. rewrite app_nil_r. split; [reflexivity |]. split; [simpl; lia |].
  intros req H. inversion H.
Qed.

Lemma sends_trans (k1 k2 : nat) (model : string) (w1 w2 w3 : world) :
  sends k1 model w1 w2 -> sends k2 model w2 w3 -> sends (k1 + k2) model w1 w3.
Proof.
  intros (n1 & H1 & C1 & M1) (n2 & H2 & C2 & M2). exists (n1 ++ n2).
  split; [rewrite H2, H1, app_assoc; reflexivity |].
  split; [rewrite count_calls_app; lia |].
  intros req Hreq. apply elem_of_app in Hreq as [Hreq | Hreq]; auto.
Qed.

Lemma sends_same_log (k : nat) (model : string) (w w1 w2 : world) :
  api_log w2 = api_log w1 -> sends k model w w1 -> sends k model w w2.
Proof. intros Heq (n & H & C & Hm). exists n. rewrite Heq. auto. Qed.

Lemma sends_other (k : nat) (model : string) (c : api_call) (w w1 : world) :
  is_query c = false -> sends k model w w1 -> sends k model w (log_call c w1).
Proof.
  intros Hc H. replace k with (k + 0) by lia. apply (sends_trans _ _ _ _ w1); [exact H |].
  exists [c]. split; [reflexivity |]. split; [simpl; rewrite Hc; lia |].
  intros req Hreq. apply list_elem_of_singleton in Hreq. subst c. discriminate.
Qed.

Lemma sends_query (m v instructions : string) (messages : list message) (w : world) :
  sends 1 m w (log_call (ResponsesCreate (make_request m v instructions messages)) w).
Proof.
  exists [ResponsesCreate (make_request m v instructions messages)].
  split; [reflexivity |]. split; [simpl; lia |].
  intros req Hreq. apply list_elem_of_singleton in Hreq. inversion Hreq. reflexivity.
Qed.

Lemma sends_more (k k' : nat) (model : string) (w w' : world) :
  k <= k' -> sends k model w w' -> sends k' model w w'.
Proof. intros Hk (n & H & C & Hm). exists n. split; [exact H |]. split; [lia | exact Hm]. Qed.

Section OneRun.

Variable client : Client.

Lemma init_session_sends (model : string) (w : world) :
  sends 0 model w (snd (init_session client w)).
Proof.
  destruct (init_session_effect client w)
    as [(v & _ & ->) | [(_ & msg & ->) | (_ & id & ->)]]; simpl.
  - apply (sends_same_log _ _ _ w); [reflexivity | apply sends_refl].
  - apply sends_other; [reflexivity | apply sends_refl].
  - apply (sends_same_log _ _ _
             (log_call (VectorStoresCreate "real_estate_due_diligence_store") w));
      [reflexivity |].
    apply sends_other; [reflexivity | apply sends_refl].
Qed.

Lemma index_file_sends (model : string) (w0 : world) (f : uploaded_file) :
  keeps (sends 0 model w0) (index_file client f).
Proof.
  intros w Hw.
  destruct (index_file_effect client f w)
    as [-> | [-> | [(v & fid & _ & ->) | (idx & v & fid & _ & _ & _ & ->)]]].
  - exact Hw.
  - apply sends_other; [reflexivity | exact Hw].
  - apply sends_other; [reflexivity |]. apply sends_other; [reflexivity | exact Hw].
  - apply (sends_same_log _ _ _
             (log_call (VectorStoresFilesCreate v fid)
                (log_call (FilesCreate (name f) (data f) "assistants") w)));
      [reflexivity |].
    apply sends_other; [reflexivity |]. apply sends_other; [reflexivity | exact Hw].
Qed.

Lemma upload_section_sends (model : string) (files : list uploaded_file) (w : world) :
  sends 0 model w (snd (upload_section client files w)).
Proof.
  assert (H : keeps (sends 0 model w) (upload_section client files)).
  { unfold upload_section.
    apply keeps_bind; [apply keeps_modify; intros w1 Hw1; exact Hw1 | intros _].
    destruct files; [apply keeps_ret |].
    apply keeps_for_each. intros f. apply index_file_sends. }
  apply H. apply sends_refl.
Qed.

(** X15.  One run of the script sends at most one query to the generation
    endpoint, and that query names the model selected in the selector
    during that same run. *)
Theorem one_query_per_run (u : ui) (w : world) :
  exists new,
    api_log (snd (script client u w)) = api_log w ++ new /\
    count_calls is_query new <= 1 /\
    forall req, ResponsesCreate req ∈ new -> req_model req = model_name (selectbox u).
Proof.
  change (sends 1 (model_name (selectbox u)) w (snd (script client u w))).
  set (sel := model_name (selectbox u)).
  unfold script, bind.
  pose proof (init_session_sends sel w) as Ha.
  destruct (init_session client w) as [[[] | e] wa]; cbn [snd] in Ha;
    [| apply (sends_more 0); [lia | exact Ha]].
  pose proof (upload_section_sends sel (uploaded_files u) wa) as Hb.
  destruct (upload_section client (uploaded_files u) wa) as [[[] | e] wb]; cbn [snd] in Hb;
    [| apply (sends_more 0); [lia |];
       replace 0 with (0 + 0) by lia; exact (sends_trans _ _ _ _ _ _ Ha Hb)].
  assert (Hab : sends 0 sel w wb)
    by (replace 0 with (0 + 0) by lia; exact (sends_trans _ _ _ _ _ _ Ha Hb)).
  clear Ha Hb. unfold model_section, modify. cbn [fst snd]. fold sel.
  set (w1 := on_session (set_model_choice (Some sel)) wb).
  assert (H1 : sends 0 sel w w1) by (apply (sends_same_log _ _ _ wb); [reflexivity | exact Hab]).
  assert (Hsel : model_choice (session w1) = Some sel) by reflexivity.
  clearbody w1. clear Hab.
  assert (Hgoal : forall w2, sends 1 sel w1 w2 -> sends 1 sel w w2).
  { intros w2 H2. replace 1 with (0 + 1) by lia. exact (sends_trans _ _ _ _ _ _ H1 H2). }
  apply Hgoal.
  pose proof (chat_section_effect client (chat_input u) w1) as Hc.
  pose proof (investor_section_effect client (button u) w1) as Hi.
  destruct (chat_section client (chat_input u) w1) as [[[] | e] wc]; cbn [fst snd] in *.
  - destruct Hc as [[-> _] | (q & h & m & v & idx & _ & _ & _ & _ & _ & _ & _ &
                               [[_ (e & He & _)] | (a & _ & He & _)])];
      try discriminate.
    destruct Hi as [-> | (h & m & v & idx & _ & _ & _ & _ & Hm & _ & ->)].
    + apply sends_refl.
    + rewrite Hsel in Hm. inversion Hm; subst m. apply sends_query.
  - destruct Hc as [[-> _] | (q & h & m & v & idx & _ & _ & _ & _ & _ & Hm & _ &
                               [[-> _] | (a & _ & _ & ->)])].
    + apply sends_refl.
    + rewrite Hsel in Hm. inversion Hm; subst m. apply sends_query.
    + rewrite Hsel in Hm. inversion Hm; subst m.
      eapply sends_same_log; [| apply sends_query]. reflexivity.
Qed.

(** X16.  The first lines of the script are idempotent: once they have
    run to their end, the four session keys exist, and running them again
    makes no call and changes nothing. *)
Theorem init_session_idempotent (w w1 : world) :
  init_session client w = (Ok tt, w1) ->
  (exists v indexed h m,
      session w1 = {| vs_id := Some v; indexed_filenames := Some indexed;
                      chat_history := Some h; model_choice := Some m |}) /\
  init_session client w1 = (Ok tt, w1).
Proof.
  intros H.
  assert (Hfull : exists v w0, vs_id (session w0) = Some v /\ w1 = fill_defaults w0).
  { destruct (init_session_effect client w)
      as [(v & Hv & E) | [(_ & msg & E) | (_ & id & E)]]; rewrite E in H.
    - injection H as <-. exists v, w. split; [exact Hv | reflexivity].
    - discriminate.
    - injection H as <-. exists id. eexists. split; [| reflexivity]. reflexivity. }
  destruct Hfull as (v & w0 & Hv & ->). split.
  - destruct w0 as [[vs indexed h m] k log]. simpl in Hv. subst vs.
    exists v, (default ∅ indexed), (default [] h), (default "gpt-5-mini" m). reflexivity.
  - destruct (init_session_effect client (fill_defaults w0))
      as [(v' & _ & E) | [(Hnone & _) | (Hnone & _)]].
    + rewrite E. reflexivity.
    + simpl in Hnone. congruence.
    + simpl in Hnone. congruence.
Qed.

End OneRun.

(** ** A failing upload, a stored turn *)

Section Stops.

Variable client : Client.

(** X17.  The indexing loop stops at the first file whose upload or
    attachment raises: the files before it have been handled, the session
    and the counter are as those files left them, and the files after it
    are not attempted in this run. *)
Theorem upload_stops_at_first_failure
    (files : list uploaded_file) (w w' : world) (e : exn) :
  upload_section client files w = (Raise e, w') ->
  exists handled f rest w1,
    files = handled ++ f :: rest /\
    upload_section client handled w = (Ok tt, w1) /\
    index_file client f w1 = (Raise e, w') /\
    session w' = session w1 /\
    newly_indexed_count w' = newly_indexed_count w1.
Proof.
  rewrite upload_section_run. intros H.
  destruct (upload_loop_failure client files _ _ _ H)
    as (handled & f & rest & w1 & Hf & Hh & He & Hs & Hc).
  exists handled, f, rest, w1. rewrite upload_section_run. auto.
Qed.

(** X18.  A chat turn that returns stores what it returns: after
    [ask_model] with [update_history=True] the transcript is the former
    transcript, the question as a user entry and the returned answer as an
    assistant entry, and nothing else in the session has changed. *)
Theorem ask_model_stores_what_it_returns
    (w w' : world) (question instructions : string) (answer : value) (files : list value) :
  ask_model client question instructions true w = (Ok (answer, files), w') ->
  transcript w' = transcript w ++ [user_message question; assistant_message answer] /\
  vs_id (session w') = vs_id (session w) /\
  indexed_filenames (session w') = indexed_filenames (session w) /\
  model_choice (session w') = model_choice (session w).
Proof.
  intros H.
  destruct (ready_or_not w) as [(h & m & v & Hh & Hm & Hv) | Hnot].
  - rewrite (ask_model_run client w question instructions true h m v Hh Hm Hv) in H.
    cbn zeta in H.
    destruct (fst (rag_call client _ _ w)) as [[a fs] | e1]; [| discriminate].
    inversion H; subst. unfold transcript. simpl. rewrite Hh. auto.
  - rewrite (ask_model_not_ready client w question instructions true Hnot) in H.
    discriminate.
Qed.

End Stops.

(** ** The caption under the memo *)



Section Caption.

Variable client : Client.


End Caption.

(** ** The further properties on sample sessions *)

Import Scenarios.

Lemma try_statement_always_completes_witness :
  fst (scan_output truncated_response []) = Raise AttributeError /\
  used_files_of truncated_response = Ok [VStr "inspection.pdf"].
Proof.
  split; [reflexivity |].
  rewrite (proj2 (try_statement_always_completes truncated_response)). reflexivity.
Defined.

Lemma citations_ignore_order_and_repetition_witness :
  sorted_set [VStr "hoa.pdf"; VStr "appraisal.pdf"; VStr "hoa.pdf"]
  = sorted_set [VStr "appraisal.pdf"; VStr "hoa.pdf"].
Proof.
  apply citations_ignore_order_and_repetition.
  intros x. rewrite !elem_of_cons. intuition.
Defined.

Lemma no_file_search_results_no_citations_witness :
  fst (rag_call (always plain_response) [user_message roof_question] chat_instructions ready)
  = Ok (py_or (output_text plain_response) no_text_output, []).
Proof.
  apply (no_file_search_results_no_citations (always plain_response) ready
           [user_message roof_question] chat_instructions "gpt-5-mini" "vs_1" plain_response);
    try reflexivity.
  intros block c (blocks & Hit & Hb) (cs & Hcs & Hc) [Htype _].
  inversion Hit; subst blocks. apply list_elem_of_singleton in Hb. subst block.
  inversion Hcs; subst cs. apply list_elem_of_singleton in Hc. subst c.
  discriminate Htype.
Defined.

Lemma rag_call_failure_modes_witness :
  let req := make_request "gpt-5-mini" "vs_1" chat_instructions [user_message roof_question] in
  rag_call endpoint_down [user_message roof_question] chat_instructions ready
    = (Raise (APIError "rate limit"), log_call (ResponsesCreate req) ready) /\
  session (log_call (ResponsesCreate req) ready) = session ready.
Proof.
  intros req.
  assert (Hrun : rag_call endpoint_down [user_message roof_question] chat_instructions ready
                 = (Raise (APIError "rate limit"), log_call (ResponsesCreate req) ready))
    by reflexivity.
  split; [exact Hrun |].
  exact (proj1 (rag_call_failure_modes endpoint_down _ _ _ _ _ Hrun)).
Defined.

Lemma failed_turn_stores_nothing_witness :
  let req := make_request "gpt-5-mini" "vs_1" chat_instructions [user_message roof_question] in
  ask_model endpoint_down roof_question chat_instructions true ready
    = (Raise (APIError "rate limit"), log_call (ResponsesCreate req) ready) /\
  transcript (log_call (ResponsesCreate req) ready) = transcript ready.
Proof.
  intros req.
  assert (Hrun : ask_model endpoint_down roof_question chat_instructions true ready
                 = (Raise (APIError "rate limit"), log_call (ResponsesCreate req) ready))
    by reflexivity.
  split; [exact Hrun |].
  exact (proj1 (proj2 (failed_turn_stores_nothing endpoint_down _ _ _ _ _ _ Hrun))).
Defined.

Lemma investor_fallback_never_shown_witness :
  memo_text no_text_output = no_text_output.
Proof.
  assert (Hrun : rag_call (always silent_response) [user_message investor_prompt]
                   investor_instructions ready
                 = (Ok (no_text_output, []),
                    log_call (ResponsesCreate
                                (make_request "gpt-5-mini" "vs_1" investor_instructions
                                   [user_message investor_prompt])) ready))
    by (vm_compute; reflexivity).
  exact (investor_fallback_never_shown (always silent_response) _ _ _ _ _ _ Hrun).
Defined.

Lemma rerun_uploads_nothing_witness :
  upload_section rejecting_uploads (uploaded_files chat_run) ready = (Ok tt, set_count 0 ready).
Proof.
  apply (rerun_uploads_nothing rejecting_uploads (uploaded_files chat_run) ready
           {[ "inspection.pdf" ]}); [reflexivity |].
  intros f Hf. apply list_elem_of_singleton in Hf. subst f. simpl. set_solver.
Defined.

Lemma upload_notice_tells_what_happened_witness :
  exists w',
    upload_section (always roof_response) three_uploads ready = (Ok tt, w') /\
    upload_notice three_uploads (newly_indexed_count w')
    = Some (Success "Indexed 3 new document(s). You can now chat with them below. 👇").
Proof.
  destruct (upload_section (always roof_response) three_uploads ready) as [o w'] eqn:Hrun.
  assert (Ho : o = Ok tt) by (apply (f_equal fst) in Hrun; vm_compute in Hrun; congruence).
  subst o. exists w'. split; [reflexivity |].
  destruct (upload_notice_tells_what_happened (always roof_response) three_uploads ready w'
              {[ "inspection.pdf" ]} eq_refl Hrun ltac:(discriminate)) as [_ Hnew].
  rewrite Hnew; [vm_compute; reflexivity |].
  intros Hall. specialize (Hall {| name := "appraisal.pdf"; data := [] |} ltac:(left)).
  simpl in Hall. apply elem_of_singleton in Hall. discriminate Hall.
Defined.

Lemma indexed_filenames_only_grow_witness :
  exists indexed',
    indexed_filenames
      (session (run_session attach_fails_for_hoa
                  [ {| uploaded_files := three_uploads; selectbox := Gpt5Mini;
                       chat_input := Some roof_question; button := true |} ] ready))
    = Some indexed' /\
    {[ "inspection.pdf" ]} ⊆ indexed'.
Proof.
  apply (indexed_filenames_only_grow attach_fails_for_hoa _ ready {[ "inspection.pdf" ]}).
  reflexivity.
Defined.

Lemma transcript_alternates_witness :
  role (assistant_message (VStr "Roof is in fair condition."))
  = (if Nat.even 1 then "user" else "assistant") /\
  truthy (content (assistant_message (VStr "Roof is in fair condition."))) = true.
Proof.
  apply (transcript_alternates (always roof_response) [upload_run; chat_run] 1).
  vm_compute. reflexivity.
Defined.

Lemma indexed_names_were_uploaded_witness :
  let w := run_session attach_fails_for_hoa
             [ {| uploaded_files := three_uploads; selectbox := Gpt5Mini;
                  chat_input := None; button := false |} ] initial_world in
  indexed_filenames (session w) = Some {[ "appraisal.pdf" ]} /\
  (forall n, n ∈ ({[ "appraisal.pdf" ]} : gset string) ->
             exists bytes, FilesCreate n bytes "assistants" ∈ api_log w) /\
  size ({[ "appraisal.pdf" ]} : gset string) <= count_calls is_attachment (api_log w).
Proof.
  intros w.
  assert (Hi : indexed_filenames (session w) = Some {[ "appraisal.pdf" ]})
    by (vm_compute; reflexivity).
  split; [exact Hi |].
  exact (indexed_names_were_uploaded attach_fails_for_hoa _ _ Hi).
Defined.

Lemma no_query_before_indexing_witness :
  let w := run_session (always roof_response) [upload_run; summary_run] initial_world in
  exists indexed, indexed_filenames (session w) = Some indexed /\ indexed <> ∅.
Proof.
  intros w.
  apply (no_query_before_indexing (always roof_response) [upload_run; summary_run]
           (make_request "gpt-5-pro" "vs_1" investor_instructions
              [user_message investor_prompt])).
  vm_compute. apply list_elem_of_In. simpl. auto 10.
Defined.

Lemma selector_shows_stored_model_witness :
  exists w1 m,
    (init_session (always roof_response) ;;;
     upload_section (always roof_response) (uploaded_files chat_run))
      (run_session (always roof_response) [upload_run; summary_run] initial_world)
    = (Ok tt, w1) /\
    model_choice (session w1) = Some m /\
    m = "gpt-5-pro" /\
    model_options !! selectbox_index m = Some m.
Proof.
  destruct ((init_session (always roof_response) ;;;
             upload_section (always roof_response) (uploaded_files chat_run))
              (run_session (always roof_response) [upload_run; summary_run] initial_world))
    as [o w1] eqn:Hrun.
  assert (Ho : o = Ok tt) by (apply (f_equal fst) in Hrun; vm_compute in Hrun; congruence).
  subst o.
  destruct (proj1 (selector_shows_stored_model (always roof_response)
                     [upload_run; summary_run] chat_run) w1 Hrun) as (m & Hm & Hidx).
  exists w1, m. split; [reflexivity |]. split; [exact Hm |]. split; [| exact Hidx].
  assert (Hpro : model_choice (session w1) = Some "gpt-5-pro").
  { replace w1 with (snd (@pair (outcome unit) world (Ok tt) w1)) by reflexivity.
    rewrite <- Hrun. vm_compute. reflexivity. }
  congruence.
Defined.

Lemma one_query_per_run_witness :
  exists new,
    api_log (snd (script (always roof_response) summary_run ready)) = api_log ready ++ new /\
    count_calls is_query new <= 1 /\
    forall req, ResponsesCreate req ∈ new -> req_model req = "gpt-5-pro".
Proof. exact (one_query_per_run (always roof_response) summary_run ready). Defined.

Lemma init_session_idempotent_witness :
  exists w1,
    init_session (always roof_response) initial_world = (Ok tt, w1) /\
    init_session (always roof_response) w1 = (Ok tt, w1).
Proof.
  destruct (init_session (always roof_response) initial_world) as [o w1] eqn:Hrun.
  assert (Ho : o = Ok tt) by (apply (f_equal fst) in Hrun; vm_compute in Hrun; congruence).
  subst o. exists w1. split; [reflexivity |].
  exact (proj2 (init_session_idempotent (always roof_response) _ _ Hrun)).
Defined.

Lemma upload_stops_at_first_failure_witness :
  exists handled f rest w1 w',
    three_uploads = handled ++ f :: rest /\
    name f = "hoa.pdf" /\
    upload_section attach_fails_for_hoa handled ready = (Ok tt, w1) /\
    index_file attach_fails_for_hoa f w1 = (Raise (APIError "timeout"), w') /\
    session w' = session w1.
Proof.
  destruct (upload_section attach_fails_for_hoa three_uploads ready) as [o w'] eqn:Hrun.
  assert (Ho : o = Raise (APIError "timeout"))
    by (apply (f_equal fst) in Hrun; vm_compute in Hrun; congruence).
  subst o.
  destruct (upload_stops_at_first_failure attach_fails_for_hoa _ _ _ _ Hrun)
    as (handled & f & rest & w1 & Hsplit & Hh & Hf & Hs & _).
  exists handled, f, rest, w1, w'. split; [exact Hsplit |].
  split; [| auto].
  destruct handled as [| f1 [| f2 handled]].
  - exfalso. inversion Hsplit; subst f rest. clear Hsplit.
    inversion Hh; subst w1. vm_compute in Hf. discriminate Hf.
  - inversion Hsplit; subst. reflexivity.
  - exfalso. inversion Hsplit as [[H1 H2 H3]]. subst f1 f2.
    apply (f_equal fst) in Hh. vm_compute in Hh.
    destruct handled; simpl in Hh; discriminate Hh.
Defined.

Lemma ask_model_stores_what_it_returns_witness :
  exists w',
    ask_model (always roof_response) roof_question chat_instructions true ready
      = (Ok (VStr "Roof is in fair condition.", [VStr "inspection.pdf"]), w') /\
    transcript w'
    = transcript ready
      ++ [user_message roof_question; assistant_message (VStr "Roof is in fair condition.")].
Proof.
  destruct (ask_model (always roof_response) roof_question chat_instructions true ready)
    as [o w'] eqn:Hrun.
  assert (Ho : o = Ok (VStr "Roof is in fair condition.", [VStr "inspection.pdf"]))
    by (apply (f_equal fst) in Hrun; vm_compute in Hrun; congruence).
  subst o. exists w'. split; [reflexivity |].
  exact (proj1 (ask_model_stores_what_it_returns (always roof_response) _ _ _ _ _ _ Hrun)).
Defined.

